(** * Automated-Call-Center: the phone-number intake loop

    A shallow embedding of
    [server/agents/sql/functions/get_patient_phoneNumber.py] (read from its
    compiled form, CPython 3.13).  The function, as the byte code has it:

<<
    import re
    from functions.create_prompt import create_prompt

    def get_patient_phoneNumber() -> str:
        while True:
            user_input = input("Agent: Please tell your phone number: ").strip()
            if not user_input:
                print("Agent: Input cannot be empty. Please enter a valid phone number.")
                continue
            phone_extracted = create_prompt("Extract only ...", user_input).strip()
            if phone_extracted == "Invalid" or not re.fullmatch(r"(\+92\d{10}|03\d{9})", phone_extracted):
                print("Agent: Not a valid phone number. ...")
                continue
            return phone_extracted
>>

    Layout of this file:
    - [PyStr]: Python [str] values as lists of code points, [str.strip],
      [==], [in];
    - [Re]: the fragment of [re] the pattern uses, with a backtracking
      matcher, its declarative semantics and a reader for the pattern text;
    - [Phone]: the constants of the function and its validator;
    - [Loop]: the interactive loop, run against a scripted operator and a
      scripted extraction service, with a log of every external call;
    - [Accounting]: counting the calls in the log;
    - [Js], [QueryProcessor], [Conversation], [CallSimulation],
      [Dashboard]: the handlers of the React client that decide what is
      sent to the backend and what the operator sees (query submission,
      the conversation state, the transcript of a voice call, elapsed
      time), as functions of the state and of what the network and the
      clock give;
    - the properties of the validator, of the loop and of the handlers. *)

From Stdlib Require Import NArith ZArith List Bool String Ascii Lia Arith.
From Stdlib Require SpecFloat DecimalString.
Import ListNotations.

Set Implicit Arguments.

(* ===================================================================== *)
(** ** Python strings *)
(* ===================================================================== *)

Module PyStr.

(** A [str] is a sequence of Unicode code points. *)
Definition codepoint := N.
Definition pystr := list codepoint.

(** The string constants of the program are ASCII. *)
Definition of_string (s : string) : pystr :=
  map N_of_ascii (list_ascii_of_string s).

(** [a == b] on strings. *)
Fixpoint eqb (a b : pystr) : bool :=
  match a, b with
  | [], [] => true
  | x :: a', y :: b' => (x =? y)%N && eqb a' b'
  | _, _ => false
  end.

(** Truth value of a string: [not s] holds of the empty string only. *)
Definition truthy (s : pystr) : bool :=
  match s with [] => false | _ :: _ => true end.

Definition in_ranges (c : codepoint) (rs : list (N * N)) : bool :=
  existsb (fun r => (fst r <=? c)%N && (c <=? snd r)%N) rs.

(** Code points for which [str.isspace] holds ([Py_UNICODE_ISSPACE]):
    these are what [str.strip()] without argument removes. *)
Definition SPACE_RANGES : list (N * N) :=
  [ (0x9, 0xD); (0x1C, 0x20); (0x85, 0x85); (0xA0, 0xA0); (0x1680, 0x1680);
    (0x2000, 0x200A); (0x2028, 0x2029); (0x202F, 0x202F); (0x205F, 0x205F);
    (0x3000, 0x3000) ]%N.

Definition isspace (c : codepoint) : bool := in_ranges c SPACE_RANGES.

(** Code points with the Unicode decimal-digit property (category Nd,
    Unicode 15.1 as shipped with CPython 3.13): [Py_UNICODE_ISDECIMAL]. *)
Definition DECIMAL_RANGES : list (N * N) :=
  [ (0x30, 0x39); (0x660, 0x669); (0x6F0, 0x6F9); (0x7C0, 0x7C9);
    (0x966, 0x96F); (0x9E6, 0x9EF); (0xA66, 0xA6F); (0xAE6, 0xAEF);
    (0xB66, 0xB6F); (0xBE6, 0xBEF); (0xC66, 0xC6F); (0xCE6, 0xCEF);
    (0xD66, 0xD6F); (0xDE6, 0xDEF); (0xE50, 0xE59); (0xED0, 0xED9);
    (0xF20, 0xF29); (0x1040, 0x1049); (0x1090, 0x1099); (0x17E0, 0x17E9);
    (0x1810, 0x1819); (0x1946, 0x194F); (0x19D0, 0x19D9); (0x1A80, 0x1A89);
    (0x1A90, 0x1A99); (0x1B50, 0x1B59); (0x1BB0, 0x1BB9); (0x1C40, 0x1C49);
    (0x1C50, 0x1C59); (0xA620, 0xA629); (0xA8D0, 0xA8D9); (0xA900, 0xA909);
    (0xA9D0, 0xA9D9); (0xA9F0, 0xA9F9); (0xAA50, 0xAA59); (0xABF0, 0xABF9);
    (0xFF10, 0xFF19); (0x104A0, 0x104A9); (0x10D30, 0x10D39); (0x11066, 0x1106F);
    (0x110F0, 0x110F9); (0x11136, 0x1113F); (0x111D0, 0x111D9); (0x112F0, 0x112F9);
    (0x11450, 0x11459); (0x114D0, 0x114D9); (0x11650, 0x11659); (0x116C0, 0x116C9);
    (0x11730, 0x11739); (0x118E0, 0x118E9); (0x11950, 0x11959); (0x11C50, 0x11C59);
    (0x11D50, 0x11D59); (0x11DA0, 0x11DA9); (0x11F50, 0x11F59); (0x16A60, 0x16A69);
    (0x16AC0, 0x16AC9); (0x16B50, 0x16B59); (0x1D7CE, 0x1D7FF); (0x1E140, 0x1E149);
    (0x1E2F0, 0x1E2F9); (0x1E4F0, 0x1E4F9); (0x1E950, 0x1E959); (0x1FBF0, 0x1FBF9) ]%N.

Definition isdecimal (c : codepoint) : bool := in_ranges c DECIMAL_RANGES.

(** The ASCII digits [0-9]. *)
Definition is_ascii_digit (c : codepoint) : bool :=
  (0x30 <=? c)%N && (c <=? 0x39)%N.

(** [s.lstrip()], [s.rstrip()], [s.strip()]. *)
Fixpoint lstrip (s : pystr) : pystr :=
  match s with
  | [] => []
  | c :: s' => if isspace c then lstrip s' else s
  end.

Definition rstrip (s : pystr) : pystr := rev (lstrip (rev s)).

Definition strip (s : pystr) : pystr := rstrip (lstrip s).

(** [p] is a prefix of [s]. *)
Fixpoint startswith (s p : pystr) {struct p} : bool :=
  match p, s with
  | [], _ => true
  | x :: p', y :: s' => (x =? y)%N && startswith s' p'
  | _ :: _, [] => false
  end.


End PyStr.

Import PyStr.

(* ===================================================================== *)
(** ** The fragment of [re] used by the pattern *)
(* ===================================================================== *)

Module Re.

(** Patterns built from literal characters, [\d], concatenation, [|],
    counted repetition [{n}] and groups. *)
Inductive regex : Type :=
| Empty                          (* the empty pattern *)
| Lit (c : codepoint)            (* a literal character, escaped or not *)
| Digit                          (* \d *)
| Cat (r1 r2 : regex)            (* r1 r2 *)
| Alt (r1 r2 : regex)            (* r1|r2 *)
| Rep (r : regex) (n : nat)      (* r{n} *)
| Group (r : regex).             (* (r) *)

(** Backtracking matcher in continuation-passing style: [go r s k] tries
    to match [r] at the head of [s] and hands what is left to [k];
    alternatives are tried left to right, as the [sre] engine does. *)
Fixpoint go (r : regex) (s : pystr) (k : pystr -> bool) {struct r} : bool :=
  match r with
  | Empty => k s
  | Lit c =>
      match s with
      | x :: s' => (x =? c)%N && k s'
      | [] => false
      end
  | Digit =>
      match s with
      | x :: s' => isdecimal x && k s'
      | [] => false
      end
  | Cat r1 r2 => go r1 s (fun s' => go r2 s' k)
  | Alt r1 r2 => go r1 s k || go r2 s k
  | Rep r1 n =>
      (fix times (n : nat) (s : pystr) {struct n} : bool :=
         match n with
         | O => k s
         | S n' => go r1 s (fun s' => times n' s')
         end) n s
  | Group r1 => go r1 s k
  end.

(** [re.fullmatch]: the match has to consume the whole subject. *)
Definition fullmatch (r : regex) (s : pystr) : bool :=
  go r s (fun rest => negb (truthy rest)).

(** *** Reading the pattern text *)

Definition chr (a : ascii) : codepoint := N_of_ascii a.

Definition is_meta (c : codepoint) : bool :=
  existsb (N.eqb c)
    (map chr ["."; "^"; "$"; "*"; "+"; "?"; "{"; "}"; "["; "]"; "\"; "|"; "("; ")"]%char).

Definition is_alnum (c : codepoint) : bool :=
  is_ascii_digit c
  || ((0x41 <=? c)%N && (c <=? 0x5A)%N)
  || ((0x61 <=? c)%N && (c <=? 0x7A)%N).

(** Leading ASCII digits of [s] read as a decimal number, with the rest. *)
Fixpoint read_count (acc : nat) (s : pystr) : nat * pystr :=
  match s with
  | c :: s' =>
      if is_ascii_digit c
      then read_count (10 * acc + N.to_nat (c - 0x30)) s'
      else (acc, s)
  | [] => (acc, s)
  end.

(** Concatenation that does not keep an empty tail. *)
Definition cat (r1 r2 : regex) : regex :=
  match r2 with
  | Empty => r1
  | _ => Cat r1 r2
  end.

(** An optional [{n}] after an item. *)
Definition p_quant (r : regex) (s : pystr) : option (regex * pystr) :=
  match s with
  | c :: s' =>
      if (c =? chr "{")%N then
        match s' with
        | d :: _ =>
            if is_ascii_digit d then
              match read_count 0 s' with
              | (n, c' :: s'') =>
                  if (c' =? chr "}")%N then Some (Rep r n, s'') else None
              | (_, []) => None
              end
            else None
        | [] => None
        end
      else Some (r, s)
  | [] => Some (r, s)
  end.

(** Recursive descent over the pattern text; [None] is [re.error] (or a
    construct outside the fragment). *)
Fixpoint p_alt (fuel : nat) (s : pystr) {struct fuel} : option (regex * pystr) :=
  match fuel with
  | O => None
  | S f =>
      match p_seq f s with
      | Some (r1, c :: s') =>
          if (c =? chr "|")%N then
            match p_alt f s' with
            | Some (r2, s'') => Some (Alt r1 r2, s'')
            | None => None
            end
          else Some (r1, c :: s')
      | other => other
      end
  end
with p_seq (fuel : nat) (s : pystr) {struct fuel} : option (regex * pystr) :=
  match fuel with
  | O => None
  | S f =>
      match s with
      | [] => Some (Empty, s)
      | c :: _ =>
          if ((c =? chr "|") || (c =? chr ")"))%N then Some (Empty, s)
          else
            match p_atom f s with
            | Some (a, s1) =>
                match p_quant a s1 with
                | Some (item, s2) =>
                    match p_seq f s2 with
                    | Some (rest, s3) => Some (cat item rest, s3)
                    | None => None
                    end
                | None => None
                end
            | None => None
            end
      end
  end
with p_atom (fuel : nat) (s : pystr) {struct fuel} : option (regex * pystr) :=
  match fuel with
  | O => None
  | S f =>
      match s with
      | [] => None
      | c :: s' =>
          if (c =? chr "(")%N then
            match p_alt f s' with
            | Some (r, c' :: s'') =>
                if (c' =? chr ")")%N then Some (Group r, s'') else None
            | _ => None
            end
          else if (c =? chr "\")%N then
            match s' with
            | e :: s'' =>
                if (e =? chr "d")%N then Some (Digit, s'')
                else if is_alnum e then None
                else Some (Lit e, s'')
            | [] => None
            end
          else if is_meta c then None
          else Some (Lit c, s')
      end
  end.

(** [re.compile]. *)
Definition compile (pattern : pystr) : option regex :=
  match p_alt (3 * List.length pattern + 3) pattern with
  | Some (r, []) => Some r
  | _ => None
  end.

(** *** Declarative meaning of a pattern *)

Inductive matches : regex -> pystr -> Prop :=
| M_Empty : matches Empty []
| M_Lit c : matches (Lit c) [c]
| M_Digit c : isdecimal c = true -> matches Digit [c]
| M_Cat r1 r2 s1 s2 :
    matches r1 s1 -> matches r2 s2 -> matches (Cat r1 r2) (s1 ++ s2)
| M_AltL r1 r2 s : matches r1 s -> matches (Alt r1 r2) s
| M_AltR r1 r2 s : matches r2 s -> matches (Alt r1 r2) s
| M_Rep0 r : matches (Rep r 0) []
| M_RepS r n s1 s2 :
    matches r s1 -> matches (Rep r n) s2 -> matches (Rep r (S n)) (s1 ++ s2)
| M_Group r s : matches r s -> matches (Group r) s.

End Re.

(* ===================================================================== *)
(** ** Constants and validator of [get_patient_phoneNumber] *)
(* ===================================================================== *)

Module Phone.

Definition ASK : pystr := of_string "Agent: Please tell your phone number: ".

Definition EMPTY_NOTICE : pystr :=
  of_string "Agent: Input cannot be empty. Please enter a valid phone number.".

Definition TEMPLATE : pystr :=
  of_string "Extract only the phone number from the given input. Ensure the response contains only a valid Pakistani phone number. The number should be either:
- A local format starting with '03' followed by 9 more digits (e.g., 03207673078)
- An international format starting with '+92' followed by 10 more digits (e.g., +923207373878)
If the input does not match these formats, return 'Invalid'. Do not return any other words or explanations.".

Definition INVALID : pystr := of_string "Invalid".

Definition PATTERN : pystr := of_string "(\+92\d{10}|03\d{9})".

Definition REJECT_NOTICE : pystr :=
  of_string "Agent: Not a valid phone number. Please enter a valid Pakistani number (e.g., 03207673078 or +923207373878).".

(** The pattern, compiled. *)
Definition phone_regex : Re.regex :=
  Eval vm_compute in
    match Re.compile PATTERN with
    | Some r => r
    | None => Re.Empty
    end.

(** The Validator: [re.fullmatch(PATTERN, s)] as a truth value. *)
Definition validator (s : pystr) : bool := Re.fullmatch phone_regex s.

End Phone.
Import Phone.

(* ===================================================================== *)
(** ** The interactive loop *)
(* ===================================================================== *)

Module Loop.

(** What a call of [create_prompt] comes back with: the service's answer,
    or an exception (service unreachable, request failed). *)
Inductive reply : Type :=
| Answer (s : pystr)
| Failure.

(** The two collaborators, scripted: the line the operator types at the
    [n]-th call of [input], and what the [n]-th call of [create_prompt]
    gives for its two arguments.  The operator always supplies a line; the
    end of the input stream is not part of this model. *)
Record world : Type := {
  operator : nat -> pystr;
  service : nat -> pystr -> pystr -> reply
}.

(** Every call that leaves the function is logged. *)
Inductive event : Type :=
| EvInput (prompt line : pystr)
| EvPrint (msg : pystr)
| EvCreatePrompt (template text : pystr) (r : reply)
| EvFullmatch (pattern subject : pystr) (res : bool).

Record state : Type := {
  asked : nat;               (* calls of input so far *)
  extracted : nat;           (* calls of create_prompt so far *)
  trace : list event         (* the log, oldest first *)
}.

Definition initial : state := {| asked := 0; extracted := 0; trace := [] |}.

(** A computation reads the world, threads the state and either yields a
    value or raises. *)
Inductive result (A : Type) : Type :=
| Val (a : A)
| Exn.
Arguments Exn {A}.

Definition M (A : Type) : Type := world -> state -> result A * state.

Definition ret {A} (a : A) : M A := fun _ st => (Val a, st).

Definition bind {A B} (m : M A) (f : A -> M B) : M B :=
  fun w st =>
    match m w st with
    | (Val a, st') => f a w st'
    | (Exn, st') => (Exn, st')
    end.

Declare Scope py_scope.
Delimit Scope py_scope with py.
Notation "x <- m ;; k" := (bind m (fun x => k))
  (at level 61, m at next level, right associativity) : py_scope.
Notation "m ;; k" := (bind m (fun _ => k))
  (at level 61, right associativity) : py_scope.
Local Open Scope py_scope.

Definition log (e : event) (st : state) : state :=
  {| asked := asked st; extracted := extracted st; trace := trace st ++ [e] |}.

(** [input(prompt)] *)
Definition input (prompt : pystr) : M pystr :=
  fun w st =>
    let line := operator w (asked st) in
    (Val line,
     {| asked := S (asked st); extracted := extracted st;
        trace := trace st ++ [EvInput prompt line] |}).

(** [print(msg)] *)
Definition print (msg : pystr) : M unit :=
  fun _ st => (Val tt, log (EvPrint msg) st).

(** [create_prompt(template, text)] *)
Definition create_prompt (template text : pystr) : M pystr :=
  fun w st =>
    let r := service w (extracted st) template text in
    let st' := {| asked := asked st; extracted := S (extracted st);
                  trace := trace st ++ [EvCreatePrompt template text r] |} in
    match r with
    | Answer s => (Val s, st')
    | Failure => (Exn, st')
    end.

(** [re.fullmatch(pattern, subject)], as a truth value; a pattern that
    does not compile raises. *)
Definition re_fullmatch (pattern subject : pystr) : M bool :=
  fun _ st =>
    match Re.compile pattern with
    | Some r =>
        let res := Re.fullmatch r subject in
        (Val res, log (EvFullmatch pattern subject res) st)
    | None => (Exn, st)
    end.

(** One pass through the body of [while True]: [Some v] is [return v],
    [None] is [continue]. *)
Definition loop_body : M (option pystr) :=
  line <- input ASK ;;
  let user_input := strip line in
  if negb (truthy user_input) then
    print EMPTY_NOTICE ;;
    ret None
  else
    answer <- create_prompt TEMPLATE user_input ;;
    let phone_extracted := strip answer in
    invalid <- (if eqb phone_extracted INVALID then ret true
                else m <- re_fullmatch PATTERN phone_extracted ;;
                     ret (negb m)) ;;
    if invalid then
      print REJECT_NOTICE ;;
      ret None
    else
      ret (Some phone_extracted).

(** How far a run has got when the fuel is used up. *)
Inductive outcome : Type :=
| Returned (v : pystr)
| Raised
| Running.

(** [get_patient_phoneNumber()], cut off after [fuel] passes. *)
Fixpoint get_patient_phoneNumber (fuel : nat) (w : world) (st : state)
  : outcome * state :=
  match fuel with
  | O => (Running, st)
  | S fuel' =>
      match loop_body w st with
      | (Val (Some v), st') => (Returned v, st')
      | (Val None, st') => get_patient_phoneNumber fuel' w st'
      | (Exn, st') => (Raised, st')
      end
  end.

End Loop.

Import Loop.

(* ===================================================================== *)
(** ** Vocabulary of the specification *)
(* ===================================================================== *)

Module Spec.

(** The two accepted shapes, over a given class of digit characters:
    [03] and 9 digits, or [+92] and 10 digits, and nothing else. *)
Definition grammar (digit : codepoint -> bool) (s : pystr) : Prop :=
  (exists ds, s = of_string "03" ++ ds
              /\ List.length ds = 9 /\ forallb digit ds = true)
  \/
  (exists ds, s = of_string "+92" ++ ds
              /\ List.length ds = 10 /\ forallb digit ds = true).

(** The same as a test. *)
Definition grammarb (digit : codepoint -> bool) (s : pystr) : bool :=
  (startswith s (of_string "03")
   && (List.length (skipn 2 s) =? 9) && forallb digit (skipn 2 s))
  ||
  (startswith s (of_string "+92")
   && (List.length (skipn 3 s) =? 10) && forallb digit (skipn 3 s)).

(** What a pass is about to see. *)
Definition line_of (w : world) (st : state) : pystr := operator w (asked st).

Definition text_of (w : world) (st : state) : pystr := strip (line_of w st).

Definition reply_of (w : world) (st : state) : reply :=
  service w (extracted st) TEMPLATE (text_of w st).

(** The operator's line is empty or made of white space only. *)
Definition blank (w : world) (st : state) : bool :=
  forallb isspace (line_of w st).

(** The states of the orchestration loop a pass can end in. *)
Inductive cycle : Type :=
| EmptyInput
| ServiceFailure
| RejectedSentinel
| RejectedMismatch (candidate : pystr)
| Accepted (field : pystr).

Definition classify (w : world) (st : state) : cycle :=
  if blank w st then EmptyInput
  else
    match reply_of w st with
    | Failure => ServiceFailure
    | Answer a =>
        let candidate := strip a in
        if eqb candidate INVALID then RejectedSentinel
        else if validator candidate then Accepted candidate
        else RejectedMismatch candidate
    end.

Definition is_rejected (c : cycle) : bool :=
  match c with
  | RejectedSentinel | RejectedMismatch _ => true
  | _ => false
  end.

Definition is_accepted (c : cycle) : bool :=
  match c with
  | Accepted _ => true
  | _ => false
  end.

(** The state a pass leaves behind, and the state after [k] passes. *)
Definition next (w : world) (st : state) : state := snd (loop_body w st).

Fixpoint after (k : nat) (w : world) (st : state) : state :=
  match k with
  | O => st
  | S k' => after k' w (next w st)
  end.

(** The extraction service always comes back with an answer. *)
Definition responsive (w : world) : Prop :=
  forall n template text, service w n template text <> Failure.

(** The log entries a step added. *)
Definition added (st st' : state) : list event :=
  skipn (List.length (trace st)) (trace st').

Definition is_fullmatch (e : event) : bool :=
  match e with EvFullmatch _ _ _ => true | _ => false end.

Definition is_create_prompt (e : event) : bool :=
  match e with EvCreatePrompt _ _ _ => true | _ => false end.


(** What one pass does, told by the kind of cycle it is: the calls it
    logs, what it hands back, and the state it leaves. *)
Definition ev_input (w : world) (st : state) : event :=
  EvInput ASK (line_of w st).

Definition ev_extract (w : world) (st : state) : event :=
  EvCreatePrompt TEMPLATE (text_of w st) (reply_of w st).

Definition pass_events (w : world) (st : state) : list event :=
  match classify w st with
  | EmptyInput => [ev_input w st; EvPrint EMPTY_NOTICE]
  | ServiceFailure => [ev_input w st; ev_extract w st]
  | RejectedSentinel =>
      [ev_input w st; ev_extract w st; EvPrint REJECT_NOTICE]
  | RejectedMismatch c =>
      [ev_input w st; ev_extract w st; EvFullmatch PATTERN c false;
       EvPrint REJECT_NOTICE]
  | Accepted v =>
      [ev_input w st; ev_extract w st; EvFullmatch PATTERN v true]
  end.

Definition pass_result (w : world) (st : state) : result (option pystr) :=
  match classify w st with
  | EmptyInput | RejectedSentinel | RejectedMismatch _ => Val None
  | ServiceFailure => Exn
  | Accepted v => Val (Some v)
  end.

Definition pass_state (w : world) (st : state) : state :=
  {| asked := S (asked st);
     extracted := if blank w st then extracted st else S (extracted st);
     trace := trace st ++ pass_events w st |}.

End Spec.

Import Spec.

(* ===================================================================== *)
(** ** Scripted worlds *)
(* ===================================================================== *)

Module Script.

Definition LOCAL : pystr := of_string "03207673078".
Definition INTL : pystr := of_string "+923207373878".

(** The operator says the number, the service extracts it. *)
Definition w_local : world :=
  {| operator := fun _ => of_string "my number is 03207673078";
     service := fun _ _ _ => Answer LOCAL |}.

(** An empty line, then a line without a number, then the number. *)
Definition w_retry : world :=
  {| operator := fun n =>
       match n with
       | 0 => []
       | 1 => of_string "call me sometime"
       | _ => of_string "it's +923207373878"
       end;
     service := fun n _ _ =>
       match n with
       | 0 => Answer INVALID
       | _ => Answer INTL
       end |}.


(** The service never finds a number. *)
Definition w_sentinel : world :=
  {| operator := fun _ => of_string "call me sometime";
     service := fun _ _ _ => Answer INVALID |}.

(** The service echoes a number that is one digit short. *)
Definition w_short : world :=
  {| operator := fun _ => of_string "0320767307";
     service := fun _ _ text => Answer text |}.

(** The service cannot be reached. *)
Definition w_down : world :=
  {| operator := fun _ => of_string "my number is 03207673078";
     service := fun _ _ _ => Failure |}.


(** The service answers the number with white space around it. *)
Definition PADDED : pystr := of_string " 03207673078" ++ [0xA%N].

Definition w_padded : world :=
  {| operator := fun _ => of_string "my number is 03207673078";
     service := fun _ _ _ => Answer PADDED |}.

(** [03] followed by the Arabic-Indic digits U+0661 .. U+0669. *)
Definition ARABIC_DIGITS : pystr :=
  [0x661; 0x662; 0x663; 0x664; 0x665; 0x666; 0x667; 0x668; 0x669]%N.

Definition ARABIC_LOCAL : pystr := of_string "03" ++ ARABIC_DIGITS.

Definition w_arabic : world :=
  {| operator := fun _ => ARABIC_LOCAL;
     service := fun _ _ text => Answer text |}.

(** The operator gives the international form. *)
Definition w_intl : world :=
  {| operator := fun _ => of_string "it's +923207373878";
     service := fun _ _ _ => Answer INTL |}.

(** The operator types the number with spaces in it and the service
    hands the text back as it is. *)
Definition w_spaced : world :=
  {| operator := fun _ => of_string "+92 320 737 3878";
     service := fun _ _ text => Answer text |}.

(** The service finds nothing in its first [n] calls and the number from
    then on. *)
Definition w_late (n : nat) : world :=
  {| operator := fun _ => LOCAL;
     service := fun k _ _ => if k <? n then Answer INVALID else Answer LOCAL |}.

End Script.

Import Script.

(* ===================================================================== *)
(** ** Reading the call log *)
(* ===================================================================== *)

Module Accounting.

Definition is_input (e : event) : bool :=
  match e with EvInput _ _ => true | _ => false end.

Definition is_print (e : event) : bool :=
  match e with EvPrint _ => true | _ => false end.

(** How many entries of a log satisfy a test. *)
Definition count (p : event -> bool) (l : list event) : nat :=
  List.length (filter p l).


(** A logged call of [create_prompt] has the fixed template as its first
    argument and, as its second, a text that is not empty and has no white
    space at either end. *)
Definition extract_ok (e : event) : bool :=
  match e with
  | EvCreatePrompt template text _ =>
      eqb template TEMPLATE && truthy text && eqb (strip text) text
  | _ => true
  end.

(** Every logged call of [create_prompt] comes right after a call of
    [input], with the fixed template and, as its text, the line that this
    [input] returned, stripped and not empty.  [last] is the line of the
    entry just before, when that entry is a call of [input]. *)
Fixpoint calls_follow_input (last : option pystr) (l : list event) : bool :=
  match l with
  | [] => true
  | EvInput _ line :: rest => calls_follow_input (Some line) rest
  | EvCreatePrompt template text _ :: rest =>
      match last with
      | Some line =>
          eqb template TEMPLATE && eqb text (strip line) && truthy text
          && calls_follow_input None rest
      | None => false
      end
  | _ :: rest => calls_follow_input None rest
  end.

(** The lines that the logged calls of [input] returned, oldest first. *)
Fixpoint input_lines (l : list event) : list pystr :=
  match l with
  | [] => []
  | EvInput _ line :: rest => line :: input_lines rest
  | _ :: rest => input_lines rest
  end.

(** A printed message is one of the two notices. *)
Definition notice_ok (e : event) : bool :=
  match e with
  | EvPrint msg => eqb msg EMPTY_NOTICE || eqb msg REJECT_NOTICE
  | _ => true
  end.

(** What a finished run leaves unprinted: the pass that returned or
    raised gave no notice. *)
Definition silent_passes (o : outcome) : nat :=
  match o with
  | Running => 0
  | Returned _ | Raised => 1
  end.


End Accounting.

Import Accounting.

(* ===================================================================== *)
(** ** JavaScript values of the client *)
(* ===================================================================== *)

Module Js.

(** A string is a sequence of UTF-16 code units. *)
Definition jsstr := list N.

Definition lit (s : string) : jsstr := of_string s.

(** White space and line terminators, as [String.prototype.trim] removes
    them. *)
Definition TRIM_RANGES : list (N * N) :=
  [ (0x9, 0xD); (0x20, 0x20); (0xA0, 0xA0); (0x1680, 0x1680);
    (0x2000, 0x200A); (0x2028, 0x2029); (0x202F, 0x202F); (0x205F, 0x205F);
    (0x3000, 0x3000); (0xFEFF, 0xFEFF) ]%N.

Definition is_white (c : N) : bool := in_ranges c TRIM_RANGES.

Fixpoint trimStart (s : jsstr) : jsstr :=
  match s with
  | [] => []
  | c :: s' => if is_white c then trimStart s' else s
  end.

Definition trimEnd (s : jsstr) : jsstr := rev (trimStart (rev s)).

(** [s.trim()] *)
Definition trim (s : jsstr) : jsstr := trimEnd (trimStart s).

(** The values that reach the handlers.  A number is a binary64 value,
    in the representation of the IEEE 754 specification.  An object or an
    array is only ever passed on, so it is kept as a reference. *)
Inductive value : Type :=
| Undefined
| Null
| Bool (b : bool)
| Num (x : SpecFloat.spec_float)
| Str (s : jsstr)
| Obj (ref : N).

(** [ToBoolean] *)
Definition truthy (v : value) : bool :=
  match v with
  | Undefined | Null => false
  | Bool b => b
  | Num x =>
      match x with
      | SpecFloat.S754_zero _ | SpecFloat.S754_nan => false
      | SpecFloat.S754_infinity _ | SpecFloat.S754_finite _ _ _ => true
      end
  | Str s => match s with [] => false | _ :: _ => true end
  | Obj _ => true
  end.

(** [a || b] *)
Definition or (a b : value) : value := if truthy a then a else b.

(** [v === s] for a string literal [s] *)
Definition is_string (v : value) (s : jsstr) : bool :=
  match v with
  | Str t => eqb t s
  | _ => false
  end.

End Js.

(* ===================================================================== *)
(** ** [QueryProcessor.jsx]: typed and spoken queries *)
(* ===================================================================== *)

Module QueryProcessor.

(** The five [useState] cells of the component. *)
Record state : Type := {
  query : Js.jsstr;
  response : Js.value;
  agent : Js.value;
  isProcessing : bool;
  isListening : bool
}.

Definition initial : state :=
  {| query := []; response := Js.Null; agent := Js.Null;
     isProcessing := false; isListening := false |}.

Definition setQuery (q : Js.jsstr) (st : state) : state :=
  {| query := q; response := response st; agent := agent st;
     isProcessing := isProcessing st; isListening := isListening st |}.

Definition setResponse (v : Js.value) (st : state) : state :=
  {| query := query st; response := v; agent := agent st;
     isProcessing := isProcessing st; isListening := isListening st |}.

Definition setAgent (v : Js.value) (st : state) : state :=
  {| query := query st; response := response st; agent := v;
     isProcessing := isProcessing st; isListening := isListening st |}.

Definition setIsProcessing (b : bool) (st : state) : state :=
  {| query := query st; response := response st; agent := agent st;
     isProcessing := b; isListening := isListening st |}.

Definition setIsListening (b : bool) (st : state) : state :=
  {| query := query st; response := response st; agent := agent st;
     isProcessing := isProcessing st; isListening := b |}.

(** The body of the POST to [/process_query]. *)
Record request : Type := { req_query : Js.jsstr }.

(** What [axios.post] comes back with: it rejects (no connection, a
    status outside 2xx), or resolves with [res.data]; reading a field of
    [res.data] throws when it is [null] or [undefined], and gives the
    field, or [undefined], otherwise. *)
Inductive data : Type :=
| NoData
| Fields (agent response : Js.value).

Inductive posted : Type :=
| Rejects
| Resolves (d : data).

Definition UNKNOWN : Js.value := Js.Str (Js.lit "Unknown").
Definition NO_RESPONSE : Js.value := Js.Str (Js.lit "No response received.").
Definition ERROR_RESPONSE : Js.value :=
  Js.Str (Js.lit "An error occurred while processing your query.").

(** [customQuery || query], with the [query] of the render whose handler
    runs; [customQuery] is [undefined] ([None]) or a string. *)
Definition finalQuery (render : state) (customQuery : option Js.jsstr)
  : Js.jsstr :=
  match customQuery with
  | Some (c :: s) => c :: s
  | _ => query render
  end.

(** [handleQuerySubmit(customQuery)]: the state it leaves once it has
    settled and the requests it has sent. *)
Definition handleQuerySubmit (render : state) (customQuery : option Js.jsstr)
    (net : posted) (st : state) : state * list request :=
  let final := finalQuery render customQuery in
  match Js.trim final with
  | [] => (st, [])
  | _ :: _ =>
      let st := setIsProcessing true st in
      let st :=
        match net with
        | Resolves (Fields a r) =>
            let st := setAgent (Js.or a UNKNOWN) st in
            setResponse (Js.or r NO_RESPONSE) st
        | Resolves NoData | Rejects =>
            setResponse ERROR_RESPONSE st
        end in
      (setIsProcessing false st, [ {| req_query := final |} ])
  end.

(** [recognition.onresult], set up by [handleVoiceInput]. *)
Definition onresult (render : state) (transcript : Js.jsstr)
    (net : posted) (st : state) : state * list request :=
  let st := setQuery transcript st in
  let st := setIsListening false st in
  handleQuerySubmit render (Some transcript) net st.

End QueryProcessor.

(* ===================================================================== *)
(** ** The [QueryProcessor] that keeps a conversation going *)
(* ===================================================================== *)

Module Conversation.

(** The six [useState] cells; [error] is [null] ([None]) or the message
    of what was caught. *)
Record state : Type := {
  query : Js.jsstr;
  response : Js.value;
  loading : bool;
  error : option Js.jsstr;
  queryStatus : Js.value;
  currentAgent : Js.value
}.

Definition INACTIVE : Js.value := Js.Str (Js.lit "inactive").

Definition initial : state :=
  {| query := []; response := Js.Str []; loading := false; error := None;
     queryStatus := INACTIVE; currentAgent := Js.Null |}.

(** The object handed to [JSON.stringify] for the body of the POST. *)
Record request : Type := {
  req_query : Js.jsstr;
  req_currentAgent : Js.value;
  req_queryStatus : Js.value
}.

(** What the parsed body is: [null], whose fields cannot be read (the
    [TypeError] has a message), or something with fields, read as
    [undefined] when absent. *)
Inductive data : Type :=
| NoData (message : Js.jsstr)
| Fields (response status agent : Js.value).

(** How the exchange goes: [fetch] rejects, the status is not ok, the
    body is not JSON, or the body is parsed. *)
Inductive fetched : Type :=
| FetchFails (message : Js.jsstr)
| NotOk
| BadJson (message : Js.jsstr)
| Json (d : data).

Definition SERVER_ERROR : Js.jsstr := Js.lit "Server error".

(** [handleSubmit(e)]: the request it sends and the state it leaves once
    it has settled. *)
Definition handleSubmit (net : fetched) (st : state) : state * request :=
  let req := {| req_query := query st;
                req_currentAgent := currentAgent st;
                req_queryStatus := queryStatus st |} in
  (* setLoading(true); setError(null); *)
  let caught (message : Js.jsstr) : state :=
    {| query := query st; response := response st; loading := false;
       error := Some message;
       queryStatus := queryStatus st; currentAgent := currentAgent st |} in
  let st' :=
    match net with
    | FetchFails message => caught message
    | NotOk => caught SERVER_ERROR
    | BadJson message => caught message
    | Json (NoData message) => caught message
    | Json (Fields r status agent) =>
        if Js.is_string status (Js.lit "resolved") then
          {| query := []; response := Js.or r (Js.Str []); loading := false;
             error := None;
             queryStatus := INACTIVE; currentAgent := Js.Null |}
        else
          {| query := query st; response := Js.or r (Js.Str []);
             loading := false; error := None;
             queryStatus := status; currentAgent := agent |}
    end in
  (st', req).

(** The text box: [onChange={e => setQuery(e.target.value)}]. *)
Definition setQuery (q : Js.jsstr) (st : state) : state :=
  {| query := q; response := response st; loading := loading st;
     error := error st;
     queryStatus := queryStatus st; currentAgent := currentAgent st |}.

(** The exchange went through and brought fields. *)
Definition succeeded (net : fetched) : bool :=
  match net with
  | Json (Fields _ _ _) => true
  | _ => false
  end.

(** A conversation: the text typed before each submit and how each
    exchange goes; the requests sent, oldest first. *)
Fixpoint converse (turns : list (Js.jsstr * fetched)) (st : state)
  : state * list request :=
  match turns with
  | [] => (st, [])
  | (typed, net) :: rest =>
      let (st1, req) := handleSubmit net (setQuery typed st) in
      let (st2, reqs) := converse rest st1 in
      (st2, req :: reqs)
  end.

(** What the server last said about the conversation, as the next request
    should repeat it. *)
Definition told (net : fetched) (before : Js.value * Js.value)
  : Js.value * Js.value :=
  match net with
  | Json (Fields _ status agent) =>
      if Js.is_string status (Js.lit "resolved") then (Js.Null, INACTIVE)
      else (agent, status)
  | _ => before
  end.

End Conversation.

(* ===================================================================== *)
(** ** The voice call: [CallControls] inside [Layout] *)
(* ===================================================================== *)

Module CallSimulation.

(** A message of the transcript; [agentType] reads as [undefined] on the
    messages that have no such property. *)
Record message : Type := {
  text : Js.value;
  sender : Js.jsstr;
  agentType : Js.value;
  timestamp : Js.jsstr
}.

Definition USER : Js.jsstr := Js.lit "user".
Definition AGENT : Js.jsstr := Js.lit "agent".
Definition RAG : Js.value := Js.Str (Js.lit "RAG").
Definition ERROR : Js.jsstr :=
  Js.lit "Error processing your message. Please try again.".

(** The cells of [Layout] that the call writes ([transcript],
    [activeAgent]) and those of [CallControls], with the [sessionIdRef]
    reference. *)
Record app : Type := {
  transcript : list message;
  activeAgent : Js.value;
  transcription : Js.value;
  isProcessing : bool;
  error : option Js.jsstr;
  sessionId : Js.value;
  sessionIdRef : Js.value
}.

Definition initial : app :=
  {| transcript := []; activeAgent := Js.Null; transcription := Js.Str [];
     isProcessing := false; error := None;
     sessionId := Js.Null; sessionIdRef := Js.Null |}.

(** [Layout.handleNewMessage] *)
Definition handleNewMessage (m : message) (st : app) : app :=
  {| transcript := transcript st ++ [m]; activeAgent := activeAgent st;
     transcription := transcription st; isProcessing := isProcessing st;
     error := error st; sessionId := sessionId st;
     sessionIdRef := sessionIdRef st |}.

(** [Layout.handleAgentChange] *)
Definition handleAgentChange (agent : Js.value) (st : app) : app :=
  {| transcript := transcript st; activeAgent := agent;
     transcription := transcription st; isProcessing := isProcessing st;
     error := error st; sessionId := sessionId st;
     sessionIdRef := sessionIdRef st |}.

Definition setTranscription (v : Js.value) (st : app) : app :=
  {| transcript := transcript st; activeAgent := activeAgent st;
     transcription := v; isProcessing := isProcessing st;
     error := error st; sessionId := sessionId st;
     sessionIdRef := sessionIdRef st |}.

Definition setIsProcessing (b : bool) (st : app) : app :=
  {| transcript := transcript st; activeAgent := activeAgent st;
     transcription := transcription st; isProcessing := b;
     error := error st; sessionId := sessionId st;
     sessionIdRef := sessionIdRef st |}.

Definition setError (e : option Js.jsstr) (st : app) : app :=
  {| transcript := transcript st; activeAgent := activeAgent st;
     transcription := transcription st; isProcessing := isProcessing st;
     error := e; sessionId := sessionId st;
     sessionIdRef := sessionIdRef st |}.

(** [sessionIdRef.current = id; setSessionId(id)] *)
Definition storeSession (id : Js.value) (st : app) : app :=
  {| transcript := transcript st; activeAgent := activeAgent st;
     transcription := transcription st; isProcessing := isProcessing st;
     error := error st; sessionId := id; sessionIdRef := id |}.

(** The form posted to [/api/process-audio]: the recorded chunks, and the
    session id when the reference holds one. *)
Record request : Type := {
  audio : list N;
  session_id : option Js.value
}.

Inductive result : Type :=
| NoResult
| Fields (session_id transcription response agent_type : Js.value).

Inductive fetched : Type :=
| FetchFails
| NotOk
| BadJson
| Json (r : result).

(** [mediaRecorderRef.current.onstop]: the request it sends and the state
    it leaves; [stamp k] is what the [k]-th [new Date().toISOString()] of
    this run gives. *)
Definition onstop (chunks : list N) (net : fetched) (stamp : nat -> Js.jsstr)
    (st : app) : app * request :=
  let req :=
    {| audio := chunks;
       session_id := if Js.truthy (sessionIdRef st)
                     then Some (sessionIdRef st) else None |} in
  let st := setIsProcessing true st in
  let st :=
    match net with
    | Json (Fields sid heard resp agent_type) =>
        let st := if Js.truthy sid then storeSession sid st else st in
        let '(st, k) :=
          if Js.truthy heard then
            (handleNewMessage
               {| text := heard; sender := USER;
                  agentType := Js.Undefined; timestamp := stamp 0 |}
               (setTranscription heard st), 1)
          else (st, 0) in
        if Js.truthy resp then
          let st :=
            handleNewMessage
              {| text := resp; sender := AGENT;
                 agentType := Js.or agent_type RAG; timestamp := stamp k |}
              st in
          if Js.truthy agent_type then handleAgentChange agent_type st
          else st
        else st
    | Json NoResult | FetchFails | NotOk | BadJson =>
        setError (Some ERROR) st
    end in
  (setIsProcessing false st, req).

Definition is_agent_message (m : message) : bool := eqb (sender m) AGENT.

(** The messages an exchange brings, as the transcript shows them. *)
Definition appended (net : fetched) (stamp : nat -> Js.jsstr)
  : list message :=
  match net with
  | Json (Fields _ heard resp agent_type) =>
      (if Js.truthy heard then
         [ {| text := heard; sender := USER;
              agentType := Js.Undefined; timestamp := stamp 0 |} ]
       else [])
      ++
      (if Js.truthy resp then
         [ {| text := resp; sender := AGENT;
              agentType := Js.or agent_type RAG;
              timestamp := stamp (if Js.truthy heard then 1 else 0) |} ]
       else [])
  | _ => []
  end.


End CallSimulation.

(* ===================================================================== *)
(** ** [Dashboard]: elapsed time of a session *)
(* ===================================================================== *)

Module Dashboard.

(** [`${n}`] for a number that is an integer. *)
Definition show (n : Z) : Js.jsstr :=
  Js.lit (DecimalString.NilZero.string_of_int (Z.to_int n)).

(** The two numbers [formatDuration] prints, from [durationMs]:
    [Math.floor(durationMs / (1000 * 60))] and
    [Math.floor((durationMs % (1000 * 60)) / 1000)].  [%] takes the sign
    of the dividend, [Math.floor] rounds down.  Time values are integers
    of milliseconds; on them the arithmetic of the numbers is exact as
    long as the difference is below 2^53. *)
Definition minutes (durationMs : Z) : Z := durationMs / (1000 * 60).

Definition seconds (durationMs : Z) : Z :=
  Z.rem durationMs (1000 * 60) / 1000.

(** [formatDuration(startTime)], with what [Date.now()] gives and the
    time value of [new Date(startTime)], which is [NaN] ([None]) for an
    invalid date. *)
Definition formatDuration (now : Z) (startTime : option Z) : Js.jsstr :=
  match startTime with
  | Some start =>
      let durationMs := (now - start)%Z in
      show (minutes durationMs) ++ Js.lit "m "
      ++ show (seconds durationMs) ++ Js.lit "s"
  | None => Js.lit "NaNm NaNs"
  end.

End Dashboard.

(* ===================================================================== *)
(** ** [Dashboard]: the settings and their two handlers *)
(* ===================================================================== *)

Module Settings.

(** The values the settings hold: primitives, and plain objects given by
    their own properties.  The order of the properties is left out. *)
Inductive prim : Type :=
| PUndefined
| PNull
| PBool (b : bool)
| PNum (x : SpecFloat.spec_float)
| PStr (s : Js.jsstr).

#[warnings="-register-all"]
Inductive node : Type :=
| Prim (p : prim)
| Object (own : Js.jsstr -> option node).

(** The own properties of an object: [None] where it has none of that
    name. *)
Definition props : Type := Js.jsstr -> option node.

Definition empty : props := fun _ => None.

(** [{...m, [k]: v}] *)
Definition override (m : props) (k : Js.jsstr) (v : node) : props :=
  fun k' => if eqb k' k then Some v else m k'.

(** The name of the [i]-th index property. *)
Definition index_key (i : nat) : Js.jsstr :=
  Js.lit (DecimalString.NilZero.string_of_uint (Nat.to_uint i)).

(** The index properties of a string: its code units, one by one. *)
Definition chars (s : Js.jsstr) : props :=
  fun k =>
    match find (fun i => eqb (index_key i) k) (seq 0 (List.length s)) with
    | Some i =>
        match nth_error s i with
        | Some c => Some (Prim (PStr [c]))
        | None => None
        end
    | None => None
    end.

(** What [{...v}] copies: the own enumerable properties of [v].  A
    missing property reads as [undefined] ([None]); [undefined], [null],
    booleans and numbers have none, and neither have the functions and the
    prototype that a name such as [constructor] reads. *)
Definition spread (v : option node) : props :=
  match v with
  | Some (Object own) => own
  | Some (Prim (PStr s)) => chars s
  | Some (Prim _) | None => empty
  end.

(** [v[k]], as far as a spread of it goes, for a [v] that is neither
    [undefined] nor [null]. *)
Definition member (v : node) (k : Js.jsstr) : option node :=
  match v with
  | Object own => own k
  | Prim (PStr s) => chars s k
  | Prim _ => None
  end.

Definition HOSPITAL_POLICIES : Js.jsstr := Js.lit "hospitalPolicies".
Definition AGENT_SETTINGS : Js.jsstr := Js.lit "agentSettings".

(** A number that is an integer. *)
Definition number (z : Z) : node :=
  Prim (PNum (SpecFloat.binary_normalize 53 1024 z 0 false)).

Definition text (s : String.string) : node := Prim (PStr (Js.lit s)).

Local Open Scope string_scope.

(** An object literal. *)
Fixpoint literal (fields : list (String.string * node)) : props :=
  match fields with
  | [] => empty
  | (k, v) :: rest => override (literal rest) (Js.lit k) v
  end.

(** The initial value of the [settings] cell.  ([literal] lets the first
    of two equal names win; no name is repeated here.) *)
Definition initial : props :=
  literal
    [ ("hospitalPolicies",
       Object (literal
         [ ("escalationThreshold", number 60);
           ("maxSessionTime", number 30);
           ("operatingHours", text "8:00 AM - 8:00 PM");
           ("emergencyRedirect", text "Emergency Services (555-123-4567)");
           ("recordingConsent", Prim (PBool true)) ]));
      ("agentSettings",
       Object (literal
         [ ("RAG", Object (literal [ ("enabled", Prim (PBool true));
                                      ("responseTime", number 3) ]));
           ("GraphRAG", Object (literal [ ("enabled", Prim (PBool true));
                                           ("responseTime", number 4) ]));
           ("SQL", Object (literal [ ("enabled", Prim (PBool true));
                                      ("responseTime", number 2) ]));
           ("General", Object (literal [ ("enabled", Prim (PBool true));
                                          ("responseTime", number 1) ])) ]))
    ].

(** [handleSettingChange(category, setting, value)]: the updater it
    hands to [setSettings], applied to the previous settings. *)
Definition handleSettingChange (category setting : Js.jsstr) (value : node)
    (prevSettings : props) : props :=
  override prevSettings category
    (Object (override (spread (prevSettings category)) setting value)).

(** [handleAgentSettingChange(agent, setting, value)]; [None] is the
    [TypeError] of reading [agentSettings[agent]] when [agentSettings] is
    [undefined] or [null]. *)
Definition handleAgentSettingChange (agent setting : Js.jsstr) (value : node)
    (prevSettings : props) : option props :=
  match prevSettings AGENT_SETTINGS with
  | None | Some (Prim PUndefined) | Some (Prim PNull) => None
  | Some section =>
      Some
        (override prevSettings AGENT_SETTINGS
           (Object
              (override (spread (Some section)) agent
                 (Object
                    (override (spread (member section agent))
                       setting value)))))
  end.

(** What the settings tab can ask for. *)
Inductive action : Type :=
| Change (category setting : Js.jsstr) (value : node)
| AgentChange (agent setting : Js.jsstr) (value : node).

Definition apply (a : action) (st : props) : option props :=
  match a with
  | Change category setting value =>
      Some (handleSettingChange category setting value st)
  | AgentChange agent setting value =>
      handleAgentSettingChange agent setting value st
  end.

Fixpoint run (acts : list action) (st : props) : option props :=
  match acts with
  | [] => Some st
  | a :: rest =>
      match apply a st with
      | Some st' => run rest st'
      | None => None
      end
  end.

Definition is_object (v : option node) : bool :=
  match v with
  | Some (Object _) => true
  | _ => false
  end.

(** Reading along a path of property names, through objects. *)
Fixpoint read (v : option node) (path : list Js.jsstr) : option node :=
  match path with
  | [] => v
  | k :: rest =>
      match v with
      | Some (Object own) => read (own k) rest
      | _ => None
      end
  end.

End Settings.

(* ===================================================================== *)
(** ** Properties *)
(* ===================================================================== *)

(** *** Strings *)

Lemma eqb_eq (a b : pystr) : eqb a b = true <-> a = b.
Proof.
  revert b; induction a as [|x a IH]; intros [|y b]; simpl; split;
    try congruence; try reflexivity.
  - intros H. apply andb_true_iff in H as [Hx Hab].
    apply N.eqb_eq in Hx. apply IH in Hab. congruence.
  - intros H. injection H as -> ->.
    rewrite N.eqb_refl. simpl. apply IH. reflexivity.
Qed.

Lemma eqb_refl (a : pystr) : eqb a a = true.
Proof. apply eqb_eq. reflexivity. Qed.

Lemma eqb_neq (a b : pystr) : eqb a b = false <-> a <> b.
Proof.
  split.
  - intros H E. apply eqb_eq in E. congruence.
  - intros H. destruct (eqb a b) eqn:E; [|reflexivity].
    apply eqb_eq in E. contradiction.
Qed.

Lemma truthy_false (s : pystr) : truthy s = false <-> s = [].
Proof. destruct s; simpl; split; congruence. Qed.

(** [lstrip] drops a run of white space from the front and nothing else. *)
Lemma lstrip_split (s : pystr) :
  exists pre, s = pre ++ lstrip s /\ forallb isspace pre = true.
Proof.
  induction s as [|c s IH]; simpl.
  - exists []. split; reflexivity.
  - destruct (isspace c) eqn:Hc.
    + destruct IH as (pre & E & Hpre).
      exists (c :: pre). simpl. rewrite Hc, Hpre. split; [|reflexivity].
      f_equal. exact E.
    + exists []. split; reflexivity.
Qed.

Lemma lstrip_nil_iff (s : pystr) : lstrip s = [] <-> forallb isspace s = true.
Proof.
  induction s as [|c s IH]; simpl.
  - split; reflexivity.
  - destruct (isspace c); simpl; [exact IH|split; discriminate].
Qed.

Lemma lstrip_head (s : pystr) c t : lstrip s = c :: t -> isspace c = false.
Proof.
  induction s as [|x s IH]; simpl; [discriminate|].
  destruct (isspace x) eqn:Hx; [exact IH|].
  intros E. injection E as -> _. exact Hx.
Qed.

Lemma lstrip_fixed c (s : pystr) : isspace c = false -> lstrip (c :: s) = c :: s.
Proof. intros H. simpl. rewrite H. reflexivity. Qed.

Lemma forallb_rev {A} (f : A -> bool) (l : list A) :
  forallb f (rev l) = forallb f l.
Proof.
  induction l as [|x l IH]; simpl; [reflexivity|].
  rewrite forallb_app, IH. simpl. rewrite andb_true_r. apply andb_comm.
Qed.

Lemma rstrip_split (s : pystr) :
  exists post, s = rstrip s ++ post /\ forallb isspace post = true.
Proof.
  unfold rstrip. destruct (lstrip_split (rev s)) as (pre & E & Hpre).
  exists (rev pre). split.
  - rewrite <- rev_app_distr, <- E, rev_involutive. reflexivity.
  - rewrite forallb_rev. exact Hpre.
Qed.

(** [strip] removes white space at both ends and keeps the middle as it is. *)
Lemma strip_split (s : pystr) :
  exists pre post,
    s = pre ++ strip s ++ post
    /\ forallb isspace pre = true /\ forallb isspace post = true.
Proof.
  unfold strip.
  destruct (lstrip_split s) as (pre & E1 & H1).
  destruct (rstrip_split (lstrip s)) as (post & E2 & H2).
  exists pre, post. split; [|split; assumption].
  rewrite <- E2. exact E1.
Qed.

Lemma strip_nil_iff (s : pystr) : strip s = [] <-> forallb isspace s = true.
Proof.
  split.
  - intros H. destruct (strip_split s) as (pre & post & E & H1 & H2).
    rewrite H in E. simpl in E. rewrite E, forallb_app, H1, H2. reflexivity.
  - intros H. unfold strip.
    apply lstrip_nil_iff in H. rewrite H. reflexivity.
Qed.

(** A string that neither starts nor ends with white space is left alone. *)
Lemma strip_fixed (c d : codepoint) (mid : pystr) :
  isspace c = false -> isspace d = false ->
  strip (c :: mid ++ [d]) = c :: mid ++ [d].
Proof.
  intros Hc Hd. unfold strip. rewrite lstrip_fixed by exact Hc.
  unfold rstrip.
  assert (E : rev (c :: mid ++ [d]) = d :: rev (c :: mid)).
  { change (c :: mid ++ [d]) with ((c :: mid) ++ [d]).
    rewrite rev_app_distr. reflexivity. }
  rewrite E, lstrip_fixed by exact Hd.
  rewrite <- E. apply rev_involutive.
Qed.

(** Two tables of ranges with no overlap have no code point in common. *)
Lemma in_ranges_disjoint (rs1 rs2 : list (N * N)) (c : codepoint) :
  forallb (fun r1 =>
     forallb (fun r2 => (snd r1 <? fst r2)%N || (snd r2 <? fst r1)%N) rs2)
    rs1 = true ->
  in_ranges c rs1 = true -> in_ranges c rs2 = false.
Proof.
  intros Hdis H1. destruct (in_ranges c rs2) eqn:H2; [|reflexivity].
  exfalso. unfold in_ranges in *.
  apply existsb_exists in H1 as (r1 & In1 & B1).
  apply existsb_exists in H2 as (r2 & In2 & B2).
  rewrite forallb_forall in Hdis. specialize (Hdis r1 In1).
  rewrite forallb_forall in Hdis. specialize (Hdis r2 In2).
  apply andb_true_iff in B1 as [L1 U1]. apply andb_true_iff in B2 as [L2 U2].
  apply N.leb_le in L1, U1, L2, U2.
  apply orb_true_iff in Hdis as [D|D]; apply N.ltb_lt in D; lia.
Qed.

(** No decimal digit is white space. *)
Lemma isdecimal_not_space (c : codepoint) :
  isdecimal c = true -> isspace c = false.
Proof.
  intros Hd. unfold isspace.
  apply (in_ranges_disjoint DECIMAL_RANGES SPACE_RANGES); [|exact Hd].
  vm_compute. reflexivity.
Qed.

(** *** The matcher against the meaning of patterns *)

Section Matcher.

Import Re.

Ltac inv H := inversion H; subst; clear H.

Lemma matches_empty_inv s : matches Empty s -> s = [].
Proof. intros H. inv H. reflexivity. Qed.

Lemma matches_lit_inv c s : matches (Lit c) s -> s = [c].
Proof. intros H. inv H. reflexivity. Qed.

Lemma matches_digit_inv s :
  matches Digit s -> exists c, s = [c] /\ isdecimal c = true.
Proof. intros H. inv H. eauto. Qed.

Lemma matches_cat_inv r1 r2 s :
  matches (Cat r1 r2) s ->
  exists a b, s = a ++ b /\ matches r1 a /\ matches r2 b.
Proof. intros H. inv H. eauto. Qed.

Lemma matches_alt_inv r1 r2 s :
  matches (Alt r1 r2) s -> matches r1 s \/ matches r2 s.
Proof. intros H. inv H; auto. Qed.

Lemma matches_rep0_inv r s : matches (Rep r 0) s -> s = [].
Proof. intros H. inv H. reflexivity. Qed.

Lemma matches_repS_inv r n s :
  matches (Rep r (S n)) s ->
  exists a b, s = a ++ b /\ matches r a /\ matches (Rep r n) b.
Proof. intros H. inv H. eauto. Qed.

Lemma matches_group_inv r s : matches (Group r) s -> matches r s.
Proof. intros H. inv H. assumption. Qed.

(** [go r s k] succeeds exactly when [s] splits into a part that [r]
    matches and a rest that [k] accepts. *)
Lemma go_spec (r : regex) :
  forall s k,
    go r s k = true <->
    exists s1 s2, s = s1 ++ s2 /\ matches r s1 /\ k s2 = true.
Proof.
  induction r as [|c| |r1 IH1 r2 IH2|r1 IH1 r2 IH2|r1 IH1 n|r1 IH1];
    intros s k.
  - (* Empty *)
    simpl. split.
    + intros H. exists [], s. repeat split; [constructor|exact H].
    + intros (s1 & s2 & -> & Hm & Hk).
      apply matches_empty_inv in Hm. subst s1. exact Hk.
  - (* Lit *)
    simpl. split.
    + destruct s as [|x s']; [discriminate|].
      intros H. apply andb_true_iff in H as [Hx Hk].
      apply N.eqb_eq in Hx. subst x.
      exists [c], s'. repeat split; [constructor|exact Hk].
    + intros (s1 & s2 & -> & Hm & Hk).
      apply matches_lit_inv in Hm. subst s1. simpl.
      rewrite N.eqb_refl. exact Hk.
  - (* Digit *)
    simpl. split.
    + destruct s as [|x s']; [discriminate|].
      intros H. apply andb_true_iff in H as [Hx Hk].
      exists [x], s'. repeat split; [constructor; exact Hx|exact Hk].
    + intros (s1 & s2 & -> & Hm & Hk).
      apply matches_digit_inv in Hm as (c & -> & Hc). simpl.
      rewrite Hc. exact Hk.
  - (* Cat *)
    simpl. rewrite IH1. split.
    + intros (s1 & s2 & -> & Hm1 & H2). apply IH2 in H2.
      destruct H2 as (t1 & t2 & -> & Hm2 & Hk).
      exists (s1 ++ t1), t2. rewrite app_assoc.
      repeat split; [constructor; assumption|exact Hk].
    + intros (s1 & s2 & -> & Hm & Hk).
      apply matches_cat_inv in Hm as (a & b & -> & Ha & Hb).
      exists a, (b ++ s2). rewrite app_assoc.
      repeat split; [assumption|]. apply IH2. exists b, s2. auto.
  - (* Alt *)
    simpl. rewrite orb_true_iff, IH1, IH2. split.
    + intros [(s1 & s2 & -> & Hm & Hk)|(s1 & s2 & -> & Hm & Hk)];
        exists s1, s2; repeat split; auto using M_AltL, M_AltR.
    + intros (s1 & s2 & -> & Hm & Hk).
      apply matches_alt_inv in Hm as [Hm|Hm]; [left|right];
        exists s1, s2; auto.
  - (* Rep *)
    simpl. revert s. induction n as [|n IHn]; intros s.
    + split.
      * intros H. exists [], s. repeat split; [constructor|exact H].
      * intros (s1 & s2 & -> & Hm & Hk).
        apply matches_rep0_inv in Hm. subst s1. exact Hk.
    + rewrite IH1. split.
      * intros (s1 & s2 & -> & Hm1 & H2). apply IHn in H2.
        destruct H2 as (t1 & t2 & -> & Hm2 & Hk).
        exists (s1 ++ t1), t2. rewrite app_assoc.
        repeat split; [constructor; assumption|exact Hk].
      * intros (s1 & s2 & -> & Hm & Hk).
        apply matches_repS_inv in Hm as (a & b & -> & Ha & Hb).
        exists a, (b ++ s2). rewrite app_assoc.
        repeat split; [assumption|]. apply IHn. exists b, s2. auto.
  - (* Group *)
    simpl. rewrite IH1. split.
    + intros (s1 & s2 & -> & Hm & Hk). exists s1, s2.
      repeat split; [constructor; exact Hm|exact Hk].
    + intros (s1 & s2 & -> & Hm & Hk).
      apply matches_group_inv in Hm. exists s1, s2. auto.
Qed.

(** [fullmatch] decides the meaning of the pattern. *)
Lemma fullmatch_iff (r : regex) (s : pystr) :
  fullmatch r s = true <-> matches r s.
Proof.
  unfold fullmatch. rewrite go_spec. split.
  - intros (s1 & s2 & -> & Hm & Hk).
    apply negb_true_iff, truthy_false in Hk. subst s2.
    rewrite app_nil_r. exact Hm.
  - intros Hm. exists s, []. rewrite app_nil_r. auto.
Qed.

Lemma matches_lit_cat (c : codepoint) (r : regex) (s : pystr) :
  matches (Cat (Lit c) r) s <-> exists t, s = c :: t /\ matches r t.
Proof.
  split.
  - intros H. apply matches_cat_inv in H as (a & b & -> & Ha & Hb).
    apply matches_lit_inv in Ha. subst a. exists b. auto.
  - intros (t & -> & H). change (c :: t) with ([c] ++ t).
    constructor; [constructor|exact H].
Qed.

Lemma matches_rep_digit (n : nat) (s : pystr) :
  matches (Rep Digit n) s <->
  List.length s = n /\ forallb isdecimal s = true.
Proof.
  revert s. induction n as [|n IH]; intros s; split.
  - intros H. apply matches_rep0_inv in H. subst s. auto.
  - intros [Hl _]. destruct s; [constructor|discriminate].
  - intros H. apply matches_repS_inv in H as (a & b & -> & Ha & Hb).
    apply matches_digit_inv in Ha as (c & -> & Hc).
    apply IH in Hb as [Hl Hd].
    simpl. rewrite Hc, Hd, Hl. auto.
  - intros [Hl Hd]. destruct s as [|c s]; [discriminate|].
    simpl in Hl, Hd. apply andb_true_iff in Hd as [Hc Hd].
    change (c :: s) with ([c] ++ s). constructor.
    + constructor. exact Hc.
    + apply IH. split; [lia|exact Hd].
Qed.

End Matcher.

(** *** The validator *)

Lemma compile_pattern : Re.compile PATTERN = Some phone_regex.
Proof. vm_compute. reflexivity. Qed.

(** The validator accepts the two shapes over Unicode decimal digits, and
    nothing else. *)
Lemma validator_iff_grammar (s : pystr) :
  validator s = true <-> grammar isdecimal s.
Proof.
  unfold validator. rewrite fullmatch_iff. unfold phone_regex, grammar.
  split.
  - intros H. apply matches_group_inv in H.
    apply matches_alt_inv in H as [Ha|Ha].
    + right.
      apply matches_lit_cat in Ha as (t1 & -> & Ha).
      apply matches_lit_cat in Ha as (t2 & -> & Ha).
      apply matches_lit_cat in Ha as (t3 & -> & Ha).
      apply matches_rep_digit in Ha as [Hl Hd].
      exists t3. auto.
    + left.
      apply matches_lit_cat in Ha as (t1 & -> & Ha).
      apply matches_lit_cat in Ha as (t2 & -> & Ha).
      apply matches_rep_digit in Ha as [Hl Hd].
      exists t2. auto.
  - intros [(ds & -> & Hl & Hd)|(ds & -> & Hl & Hd)]; constructor.
    + apply Re.M_AltR.
      apply matches_lit_cat. eexists. split; [reflexivity|].
      apply matches_lit_cat. eexists. split; [reflexivity|].
      apply matches_rep_digit. auto.
    + apply Re.M_AltL.
      apply matches_lit_cat. eexists. split; [reflexivity|].
      apply matches_lit_cat. eexists. split; [reflexivity|].
      apply matches_lit_cat. eexists. split; [reflexivity|].
      apply matches_rep_digit. auto.
Qed.

(** *** One pass of the loop *)

Lemma blank_strip (w : world) (st : state) :
  blank w st = negb (truthy (strip (line_of w st))).
Proof.
  unfold blank. destruct (strip (line_of w st)) eqn:E; simpl.
  - apply strip_nil_iff. exact E.
  - destruct (forallb isspace (line_of w st)) eqn:F; [|reflexivity].
    apply strip_nil_iff in F. congruence.
Qed.

(** [loop_body] does what the kind of the cycle says. *)
Lemma loop_body_pass (w : world) (st : state) :
  loop_body w st = (pass_result w st, pass_state w st).
Proof.
  unfold pass_result, pass_state, pass_events, classify.
  rewrite blank_strip.
  unfold loop_body, bind, input, print, create_prompt, re_fullmatch, ret, log,
    ev_input, ev_extract, reply_of, text_of, line_of.
  set (line := operator w (asked st)).
  destruct (truthy (strip line)) eqn:Ht;
    cbv beta iota zeta delta [negb]; cbn [asked extracted trace].
  - destruct (service w (extracted st) TEMPLATE (strip line)) as [a|] eqn:Hr;
      cbv beta iota zeta; cbn [asked extracted trace]; rewrite ?Hr.
    + destruct (eqb (strip a) INVALID) eqn:Hs; cbv beta iota zeta;
        cbn [asked extracted trace].
      * rewrite <- !app_assoc. reflexivity.
      * rewrite compile_pattern. cbv beta iota zeta.
        fold (validator (strip a)).
        destruct (validator (strip a)); cbv beta iota zeta delta [negb];
          cbn [asked extracted trace];
          rewrite <- !app_assoc; reflexivity.
    + rewrite <- !app_assoc. reflexivity.
  - rewrite <- !app_assoc. reflexivity.
Qed.

Lemma next_pass (w : world) (st : state) : next w st = pass_state w st.
Proof. unfold next. rewrite loop_body_pass. reflexivity. Qed.

Lemma added_app (st : state) (evs : list event) a e :
  added st {| asked := a; extracted := e; trace := trace st ++ evs |} = evs.
Proof.
  unfold added. cbn [trace].
  rewrite skipn_app, skipn_all, Nat.sub_diag. reflexivity.
Qed.

Lemma added_next (w : world) (st : state) :
  added st (next w st) = pass_events w st.
Proof. rewrite next_pass. apply added_app. Qed.

(** *** Runs of the loop *)

Lemma run_step (fuel : nat) (w : world) (st : state) :
  get_patient_phoneNumber (S fuel) w st =
  match pass_result w st with
  | Val (Some v) => (Returned v, next w st)
  | Val None => get_patient_phoneNumber fuel w (next w st)
  | Exn => (Raised, next w st)
  end.
Proof.
  cbn [get_patient_phoneNumber]. rewrite next_pass, loop_body_pass.
  destruct (pass_result w st) as [[v|]|]; reflexivity.
Qed.

Lemma after_next (k : nat) (w : world) (st : state) :
  after (S k) w st = next w (after k w st).
Proof.
  revert st. induction k as [|k IH]; intros st; [reflexivity|].
  change (after (S (S k)) w st) with (after (S k) w (next w st)).
  rewrite IH. reflexivity.
Qed.

Lemma pass_result_continue (w : world) (st : state) :
  pass_result w st = Val None <->
  classify w st = EmptyInput \/ is_rejected (classify w st) = true.
Proof.
  unfold pass_result. destruct (classify w st); simpl; split;
    intros H; try reflexivity; try discriminate; auto;
    destruct H; discriminate.
Qed.

Lemma pass_result_return (w : world) (st : state) (v : pystr) :
  pass_result w st = Val (Some v) <-> classify w st = Accepted v.
Proof.
  unfold pass_result. destruct (classify w st); split; intros H;
    try discriminate; congruence.
Qed.

Lemma pass_result_raise (w : world) (st : state) :
  pass_result w st = Exn <-> classify w st = ServiceFailure.
Proof.
  unfold pass_result. destruct (classify w st); split; intros H;
    try discriminate; reflexivity.
Qed.

(** While the passes continue, the loop is still running. *)
Lemma run_continue (n : nat) (w : world) :
  forall st,
    (forall k, k < n -> pass_result w (after k w st) = Val None) ->
    forall m,
      get_patient_phoneNumber (n + m) w st =
      get_patient_phoneNumber m w (after n w st).
Proof.
  induction n as [|n IH]; intros st Hc m; [reflexivity|].
  change (S n + m) with (S (n + m)). rewrite run_step.
  pose proof (Hc 0 (Nat.lt_0_succ n)) as H0. cbn [after] in H0. rewrite H0.
  change (after (S n) w st) with (after n w (next w st)).
  apply IH. intros k Hk. apply (Hc (S k)). lia.
Qed.

(** A run that returns does so on a pass that is [Accepted], after passes
    that all continued. *)
Lemma run_returned_inv (fuel : nat) (w : world) :
  forall st v st',
    get_patient_phoneNumber fuel w st = (Returned v, st') ->
    exists k,
      k < fuel
      /\ (forall j, j < k -> pass_result w (after j w st) = Val None)
      /\ classify w (after k w st) = Accepted v
      /\ st' = next w (after k w st).
Proof.
  induction fuel as [|fuel IH]; intros st v st' H; [discriminate|].
  rewrite run_step in H.
  destruct (pass_result w st) as [[v0|]|] eqn:Hp.
  - injection H as -> <-. exists 0. repeat split; [lia| |].
    + intros j Hj. lia.
    + apply pass_result_return. exact Hp.
  - apply IH in H as (k & Hk & Hc & Ha & ->).
    exists (S k). repeat split; [lia| |exact Ha].
    intros [|j] Hj; [exact Hp|]. apply Hc. lia.
  - discriminate.
Qed.

(** A run that raises does so on a pass whose extraction call failed. *)
Lemma run_raised_inv (fuel : nat) (w : world) :
  forall st st',
    get_patient_phoneNumber fuel w st = (Raised, st') ->
    exists k,
      k < fuel
      /\ (forall j, j < k -> pass_result w (after j w st) = Val None)
      /\ classify w (after k w st) = ServiceFailure.
Proof.
  induction fuel as [|fuel IH]; intros st st' H; [discriminate|].
  rewrite run_step in H.
  destruct (pass_result w st) as [[v0|]|] eqn:Hp.
  - discriminate.
  - apply IH in H as (k & Hk & Hc & Ha).
    exists (S k). repeat split; [lia| |exact Ha].
    intros [|j] Hj; [exact Hp|]. apply Hc. lia.
  - exists 0. repeat split; [lia| |].
    + intros j Hj. lia.
    + apply pass_result_raise. exact Hp.
Qed.

Lemma classify_accepted_inv (w : world) (st : state) (v : pystr) :
  classify w st = Accepted v ->
  blank w st = false
  /\ exists a, reply_of w st = Answer a /\ v = strip a
               /\ v <> INVALID /\ validator v = true.
Proof.
  unfold classify. destruct (blank w st); [discriminate|].
  destruct (reply_of w st) as [a|]; [|discriminate].
  destruct (eqb (strip a) INVALID) eqn:Hs; [discriminate|].
  destruct (validator (strip a)) eqn:Hv; [|discriminate].
  intros H. injection H as <-. split; [reflexivity|].
  exists a. repeat split; [|exact Hv]. apply eqb_neq. exact Hs.
Qed.

Lemma responsive_no_failure (w : world) (st : state) :
  responsive w -> classify w st <> ServiceFailure.
Proof.
  intros Hr. unfold classify. destruct (blank w st); [discriminate|].
  destruct (reply_of w st) as [a|] eqn:Ha.
  - destruct (eqb (strip a) INVALID); [discriminate|].
    destruct (validator (strip a)); discriminate.
  - exfalso. exact (Hr _ _ _ Ha).
Qed.

Lemma responsive_continue (w : world) (st : state) :
  responsive w -> is_accepted (classify w st) = false ->
  pass_result w st = Val None.
Proof.
  intros Hr Hn. pose proof (responsive_no_failure st Hr) as Hf.
  unfold pass_result. destruct (classify w st); try reflexivity;
    [contradiction|discriminate].
Qed.

(** *** The validator and the grammar *)

Lemma ascii_digit_isdecimal (c : codepoint) :
  is_ascii_digit c = true -> isdecimal c = true.
Proof.
  intros H. unfold isdecimal, in_ranges, DECIMAL_RANGES.
  cbn [existsb fst snd]. unfold is_ascii_digit in H. rewrite H. reflexivity.
Qed.

Lemma forallb_impl {A} (f g : A -> bool) (l : list A) :
  (forall x, f x = true -> g x = true) ->
  forallb f l = true -> forallb g l = true.
Proof.
  intros Hfg. rewrite !forallb_forall. intros H x Hx. apply Hfg, H, Hx.
Qed.

(** The shapes over ASCII digits are among those the validator accepts. *)
Lemma ascii_grammar_accepted (s : pystr) :
  grammar is_ascii_digit s -> validator s = true.
Proof.
  intros H. apply validator_iff_grammar.
  destruct H as [(ds & E & Hl & Hd)|(ds & E & Hl & Hd)]; [left|right];
    exists ds; repeat split; try assumption;
    apply (forallb_impl _ _ _ ascii_digit_isdecimal Hd).
Qed.

Lemma startswith_iff (s p : pystr) :
  startswith s p = true <-> exists t, s = p ++ t.
Proof.
  revert s. induction p as [|x p IH]; intros s.
  - cbn [startswith]. split; [exists s; reflexivity|reflexivity].
  - destruct s as [|y s]; cbn [startswith].
    + split; [discriminate|]. intros (t & E). discriminate.
    + rewrite andb_true_iff, N.eqb_eq, IH. split.
      * intros (-> & t & ->). exists t. reflexivity.
      * intros (t & E). injection E as -> ->. split; [reflexivity|].
        exists t. reflexivity.
Qed.

(** The test [grammarb] decides [grammar]. *)
Lemma grammarb_iff (digit : codepoint -> bool) (s : pystr) :
  grammarb digit s = true <-> grammar digit s.
Proof.
  unfold grammarb, grammar.
  rewrite orb_true_iff, !andb_true_iff, !startswith_iff, !Nat.eqb_eq. split.
  - intros [[[(t & ->) Hl] Hd]|[[(t & ->) Hl] Hd]]; [left|right];
      exists t; auto.
  - intros [(ds & -> & Hl & Hd)|(ds & -> & Hl & Hd)]; [left|right];
      (repeat split; [exists ds; reflexivity|exact Hl|exact Hd]).
Qed.

(** What the validator accepts has no white space at either end. *)
Lemma validator_strip_fixed (v : pystr) : validator v = true -> strip v = v.
Proof.
  intros H. apply validator_iff_grammar in H.
  assert (Hds : forall ds n, List.length ds = S n ->
                forallb isdecimal ds = true ->
                exists mid d, ds = mid ++ [d] /\ isspace d = false).
  { intros ds n Hl Hd. destruct (exists_last (l := ds)) as (mid & d & E).
    - intros ->. discriminate.
    - exists mid, d. split; [exact E|]. subst ds.
      rewrite forallb_app in Hd. apply andb_true_iff in Hd as [_ Hd].
      cbn in Hd. rewrite andb_true_r in Hd.
      apply isdecimal_not_space. exact Hd. }
  destruct H as [(ds & -> & Hl & Hd)|(ds & -> & Hl & Hd)];
    destruct (Hds ds _ Hl Hd) as (mid & d & -> & Hsp).
  - change (of_string "03" ++ mid ++ [d])
      with (0x30%N :: (0x33%N :: mid) ++ [d]).
    apply strip_fixed; [reflexivity|exact Hsp].
  - change (of_string "+92" ++ mid ++ [d])
      with (0x2B%N :: (0x39%N :: 0x32%N :: mid) ++ [d]).
    apply strip_fixed; [reflexivity|exact Hsp].
Qed.

Lemma validator_rejects_sentinel : validator INVALID = false.
Proof. vm_compute. reflexivity. Qed.

(** The shapes over ASCII digits alone are narrower than what the
    validator accepts. *)
Lemma ascii_grammar_is_narrower :
  validator ARABIC_LOCAL = true /\ ~ grammar is_ascii_digit ARABIC_LOCAL.
Proof.
  split; [vm_compute; reflexivity|].
  intros H. apply grammarb_iff in H. vm_compute in H. discriminate.
Qed.

(** What is accepted is 11 or 13 characters long. *)
Lemma validator_length (s : pystr) :
  validator s = true -> List.length s = 11 \/ List.length s = 13.
Proof.
  intros H. apply validator_iff_grammar in H.
  destruct H as [(ds & -> & Hl & _)|(ds & -> & Hl & _)]; [left|right];
    rewrite length_app, Hl; reflexivity.
Qed.

(** A string with white space anywhere in it is rejected. *)
Lemma validator_no_whitespace (s : pystr) :
  existsb isspace s = true -> validator s = false.
Proof.
  intros Hsp. destruct (validator s) eqn:Hv; [|reflexivity]. exfalso.
  apply validator_iff_grammar in Hv.
  assert (Hall : forallb (fun c => negb (isspace c)) s = true).
  { destruct Hv as [(ds & -> & _ & Hd)|(ds & -> & _ & Hd)];
      rewrite forallb_app; apply andb_true_iff; (split; [reflexivity|]);
      refine (forallb_impl _ _ _ _ Hd); intros c Hc;
      rewrite (isdecimal_not_space _ Hc); reflexivity. }
  apply existsb_exists in Hsp as (c & Hin & Hc).
  rewrite forallb_forall in Hall. specialize (Hall c Hin).
  rewrite Hc in Hall. discriminate.
Qed.

(** C1: the Validator accepts a string if and only if the whole string is
    [03] followed by exactly 9 decimal digits or [+92] followed by exactly
    10 decimal digits; every other string is rejected.  A decimal digit is
    what [\d] matches on a [str] pattern: a character with the Unicode
    decimal-digit property. *)
Theorem C1_validator_accepts_exactly_the_grammar :
  forall s : pystr, validator s = true <-> grammar isdecimal s.
Proof. exact validator_iff_grammar. Qed.

(** C9: some string made of [03] and nine decimal digits that are not
    ASCII, so not one of the shapes over [0-9], passes the validator, and a
    run of the loop returns it. *)
Theorem C9_non_ascii_digits_accepted :
  exists (s ds : pystr) (w : world),
    s = of_string "03" ++ ds
    /\ List.length ds = 9
    /\ forallb isdecimal ds = true
    /\ forallb (fun c => negb (is_ascii_digit c)) ds = true
    /\ ~ grammar is_ascii_digit s
    /\ validator s = true
    /\ fst (get_patient_phoneNumber 1 w initial) = Returned s.
Proof.
  exists ARABIC_LOCAL, ARABIC_DIGITS, w_arabic.
  split; [reflexivity|]. split; [reflexivity|].
  split; [vm_compute; reflexivity|]. split; [vm_compute; reflexivity|].
  split; [exact (proj2 ascii_grammar_is_narrower)|].
  split; vm_compute; reflexivity.
Qed.

(** C2: whatever a run of [get_patient_phoneNumber] returns has passed
    the validator, so it has one of the two shapes of the grammar and is
    not the sentinel; the last call the run logged is the successful
    [re.fullmatch] on that very value. *)
Theorem C2_returned_value_is_validated :
  forall (fuel : nat) (w : world) (st : state) (v : pystr) (st' : state),
    get_patient_phoneNumber fuel w st = (Returned v, st') ->
    validator v = true
    /\ grammar isdecimal v
    /\ v <> INVALID
    /\ exists evs, trace st' = evs ++ [EvFullmatch PATTERN v true].
Proof.
  intros fuel w st v st' H.
  apply run_returned_inv in H as (k & _ & _ & Ha & ->).
  pose proof (classify_accepted_inv _ _ Ha) as (_ & a & _ & _ & Hne & Hv).
  repeat split; [exact Hv|apply validator_iff_grammar; exact Hv|exact Hne|].
  rewrite next_pass. unfold pass_state, pass_events. rewrite Ha.
  cbn [trace].
  exists (trace (after k w st) ++
          [ev_input w (after k w st); ev_extract w (after k w st)]).
  rewrite <- app_assoc. reflexivity.
Qed.

Lemma C2_witness :
  validator LOCAL = true
  /\ grammar isdecimal LOCAL
  /\ LOCAL <> INVALID
  /\ exists evs,
       trace (snd (get_patient_phoneNumber 1 w_local initial))
       = evs ++ [EvFullmatch PATTERN LOCAL true].
Proof.
  apply (C2_returned_value_is_validated 1 w_local initial).
  vm_compute. reflexivity.
Defined.

(** *** Passes by kind *)


Lemma classify_sentinel (w : world) (st : state) :
  blank w st = false -> reply_of w st = Answer INVALID ->
  classify w st = RejectedSentinel.
Proof.
  intros Hb Hr. unfold classify. rewrite Hb, Hr.
  reflexivity.
Qed.




(** C3: when the extraction service answers the sentinel [Invalid], the
    pass is a rejected one: it prints the rejection notice and continues,
    and between the extraction call and the notice no [re.fullmatch] is
    run; nor would the grammar accept the sentinel, and no run ever returns
    it. *)
Theorem C3_sentinel_rejected_before_matching :
  forall (w : world) (st : state),
    blank w st = false ->
    reply_of w st = Answer INVALID ->
    classify w st = RejectedSentinel
    /\ fst (loop_body w st) = Val None
    /\ added st (next w st)
       = [EvInput ASK (line_of w st);
          EvCreatePrompt TEMPLATE (text_of w st) (Answer INVALID);
          EvPrint REJECT_NOTICE]
    /\ existsb is_fullmatch (added st (next w st)) = false
    /\ validator INVALID = false
    /\ (forall fuel st', get_patient_phoneNumber fuel w st
                         <> (Returned INVALID, st')).
Proof.
  intros w st Hb Hr. pose proof (classify_sentinel _ _ Hb Hr) as Hc.
  assert (Ha : added st (next w st)
               = [EvInput ASK (line_of w st);
                  EvCreatePrompt TEMPLATE (text_of w st) (Answer INVALID);
                  EvPrint REJECT_NOTICE]).
  { rewrite added_next. unfold pass_events, ev_input, ev_extract.
    rewrite Hc, Hr. reflexivity. }
  split; [exact Hc|].
  split; [rewrite loop_body_pass; unfold pass_result; rewrite Hc; reflexivity|].
  split; [exact Ha|].
  split; [rewrite Ha; reflexivity|].
  split; [exact validator_rejects_sentinel|].
  - intros fuel st' H.
    apply run_returned_inv in H as (k & _ & _ & Hk & _).
    apply classify_accepted_inv in Hk as (_ & a & _ & _ & Hne & _).
    apply Hne. reflexivity.
Qed.

Lemma C3_witness :
  classify w_sentinel initial = RejectedSentinel
  /\ fst (loop_body w_sentinel initial) = Val None
  /\ added initial (next w_sentinel initial)
     = [EvInput ASK (line_of w_sentinel initial);
        EvCreatePrompt TEMPLATE (text_of w_sentinel initial) (Answer INVALID);
        EvPrint REJECT_NOTICE]
  /\ existsb is_fullmatch (added initial (next w_sentinel initial)) = false
  /\ validator INVALID = false
  /\ (forall fuel st', get_patient_phoneNumber fuel w_sentinel initial
                       <> (Returned INVALID, st')).
Proof.
  apply (C3_sentinel_rejected_before_matching w_sentinel initial).
  - vm_compute. reflexivity.
  - reflexivity.
Defined.



Lemma fst_run_inv (fuel : nat) (w : world) (st : state) (o : outcome) :
  fst (get_patient_phoneNumber fuel w st) = o ->
  exists st', get_patient_phoneNumber fuel w st = (o, st').
Proof.
  destruct (get_patient_phoneNumber fuel w st) as [o' st'] eqn:E.
  cbn [fst]. intros <-. exists st'. reflexivity.
Qed.

(** With a service that always answers, the run is decided by the first
    accepted pass. *)
Lemma run_first_accepted (w : world) (st : state) (n : nat) (v : pystr) :
  responsive w ->
  (forall k, k < n -> is_accepted (classify w (after k w st)) = false) ->
  classify w (after n w st) = Accepted v ->
  forall fuel,
    fst (get_patient_phoneNumber fuel w st)
    = if fuel <=? n then Running else Returned v.
Proof.
  intros Hr Hbefore Hn fuel.
  assert (Hc : forall k, k < n -> pass_result w (after k w st) = Val None).
  { intros k Hk. apply responsive_continue; [exact Hr|]. apply Hbefore, Hk. }
  destruct (Nat.leb_spec fuel n) as [Hle|Hlt].
  - rewrite <- (Nat.add_0_r fuel). rewrite run_continue; [reflexivity|].
    intros k Hk. apply Hc. lia.
  - replace fuel with (n + S (fuel - S n)) by lia.
    rewrite run_continue by exact Hc. rewrite run_step.
    apply pass_result_return in Hn. rewrite Hn. reflexivity.
Qed.





Lemma w_retry_responsive : responsive w_retry.
Proof. intros [|n] template text; discriminate. Qed.



Lemma w_late_responsive (n : nat) : responsive (w_late n).
Proof.
  intros k template text. unfold w_late. cbn [service].
  destruct (k <? n); discriminate.
Qed.

(** For any number of passes there is a script that keeps the loop busy
    for that long and lets it return on the next pass: no retry count
    caps the loop. *)
Lemma retries_unbounded (n : nat) :
  fst (get_patient_phoneNumber n (w_late n) initial) = Running
  /\ fst (get_patient_phoneNumber (S n) (w_late n) initial) = Returned LOCAL.
Proof.
  set (w := w_late n).
  assert (Hst : forall k, k <= n -> extracted (after k w initial) = k).
  { induction k as [|k IH]; intros Hk; [reflexivity|].
    rewrite after_next, next_pass. unfold pass_state. cbn [extracted].
    rewrite IH by lia. reflexivity. }
  assert (Hcl : forall k, k <= n ->
            classify w (after k w initial)
            = if k <? n then RejectedSentinel else Accepted LOCAL).
  { intros k Hk. unfold classify, blank, reply_of, text_of, line_of.
    rewrite (Hst k Hk). cbn [operator service w w_late].
    change (forallb isspace LOCAL) with false.
    cbv beta iota. destruct (k <? n); reflexivity. }
  assert (Hb : forall k, k < n ->
            is_accepted (classify w (after k w initial)) = false).
  { intros k Hk. rewrite Hcl by lia.
    destruct (Nat.ltb_spec k n); [reflexivity|lia]. }
  assert (Hn : classify w (after n w initial) = Accepted LOCAL).
  { rewrite Hcl by lia. rewrite Nat.ltb_irrefl. reflexivity. }
  pose proof (@run_first_accepted w initial n LOCAL (w_late_responsive n) Hb Hn)
    as Hrun.
  split.
  - rewrite (Hrun n). rewrite Nat.leb_refl. reflexivity.
  - rewrite (Hrun (S n)).
    destruct (Nat.leb_spec (S n) n); [lia|reflexivity].
Qed.

(** C6, as stated, fails: when the call of [create_prompt] raises, the
    pass does not continue and the run ends with the exception, not with
    an accepted value. *)
Lemma C6_refuted_by_service_failure :
  classify w_down initial = ServiceFailure
  /\ fst (loop_body w_down initial) = Exn
  /\ fst (get_patient_phoneNumber 1 w_down initial) = Raised.
Proof. repeat split; vm_compute; reflexivity. Qed.

(** C6 (amended): the conditions the loop handles itself, an empty input,
    the sentinel and a grammar mismatch, are recovered by going back to
    the prompt; a call of [create_prompt] that raises is not caught and
    ends [get_patient_phoneNumber] with the exception.  The loop is left
    in these two ways only: with an accepted value, or by such an
    exception; with a service that always answers, only with an accepted
    value. *)
Theorem C6_only_service_failure_is_fatal :
  forall (w : world) (st : state),
    (classify w st = EmptyInput \/ is_rejected (classify w st) = true ->
       fst (loop_body w st) = Val None
       /\ forall fuel, get_patient_phoneNumber (S fuel) w st
                       = get_patient_phoneNumber fuel w (next w st))
    /\ (classify w st = ServiceFailure ->
        forall fuel, fst (get_patient_phoneNumber (S fuel) w st) = Raised)
    /\ (forall fuel,
          fst (get_patient_phoneNumber fuel w st) = Raised ->
          exists k, k < fuel /\ classify w (after k w st) = ServiceFailure)
    /\ (forall fuel v,
          fst (get_patient_phoneNumber fuel w st) = Returned v ->
          exists k, k < fuel /\ classify w (after k w st) = Accepted v)
    /\ (responsive w ->
        forall fuel, fst (get_patient_phoneNumber fuel w st) <> Raised).
Proof.
  intros w st.
  assert (Hraised : forall fuel,
            fst (get_patient_phoneNumber fuel w st) = Raised ->
            exists k, k < fuel /\ classify w (after k w st) = ServiceFailure).
  { intros fuel H. apply fst_run_inv in H as (st' & H).
    apply run_raised_inv in H as (k & Hk & _ & Hc). exists k. auto. }
  split; [|split; [|split; [|split]]].
  - intros H. apply pass_result_continue in H. split.
    + rewrite loop_body_pass. exact H.
    + intros fuel. rewrite run_step, H. reflexivity.
  - intros H fuel. apply pass_result_raise in H.
    rewrite run_step, H. reflexivity.
  - exact Hraised.
  - intros fuel v H. apply fst_run_inv in H as (st' & H).
    apply run_returned_inv in H as (k & Hk & _ & Hc & _). exists k. auto.
  - intros Hr fuel H. apply Hraised in H as (k & _ & Hc).
    exact (responsive_no_failure _ Hr Hc).
Qed.

Lemma C6_witness :
  (fst (loop_body w_retry initial) = Val None
   /\ forall fuel, get_patient_phoneNumber (S fuel) w_retry initial
                   = get_patient_phoneNumber fuel w_retry
                       (next w_retry initial))
  /\ (forall fuel, fst (get_patient_phoneNumber (S fuel) w_down initial)
                   = Raised)
  /\ (forall fuel, fst (get_patient_phoneNumber fuel w_retry initial)
                   <> Raised).
Proof.
  split; [|split].
  - apply (proj1 (C6_only_service_failure_is_fatal w_retry initial)).
    left. vm_compute. reflexivity.
  - apply (proj1 (proj2 (C6_only_service_failure_is_fatal w_down initial))).
    vm_compute. reflexivity.
  - apply (proj2 (proj2 (proj2 (proj2
             (C6_only_service_failure_is_fatal w_retry initial))))).
    exact w_retry_responsive.
Defined.



(** The logged call of [re.fullmatch] on the pattern yields the validator's
    verdict and touches nothing but the log. *)
Lemma re_fullmatch_pattern (s : pystr) (w : world) (st : state) :
  re_fullmatch PATTERN s w st
  = (Val (validator s), log (EvFullmatch PATTERN s (validator s)) st).
Proof. unfold re_fullmatch. rewrite compile_pattern. reflexivity. Qed.

(** A reply that the validator accepts makes the pass an accepted one. *)
Lemma classify_accepted (w : world) (st : state) (s : pystr) :
  blank w st = false -> reply_of w st = Answer s -> validator s = true ->
  classify w st = Accepted s.
Proof.
  intros Hb Hr Hv. unfold classify. rewrite Hb, Hr. cbv zeta.
  rewrite (validator_strip_fixed _ Hv), Hv.
  destruct (eqb s INVALID) eqn:E; [|reflexivity].
  apply eqb_eq in E. subst s. rewrite validator_rejects_sentinel in Hv.
  discriminate.
Qed.

(** C10, as stated, fails: a reply that is the number with white space
    around it does not pass the validator as it is, yet the pass is not
    rejected; the loop returns the number without the white space, which
    is not the reply character for character. *)
Lemma C10_refuted_by_padded_reply :
  reply_of w_padded initial = Answer PADDED
  /\ validator PADDED = false
  /\ fst (get_patient_phoneNumber 1 w_padded initial) = Returned LOCAL
  /\ LOCAL <> PADDED.
Proof.
  split; [reflexivity|]. split; [vm_compute; reflexivity|].
  split; [vm_compute; reflexivity|]. discriminate.
Qed.

Lemma lstrip_app_space (pre s : pystr) :
  forallb isspace pre = true -> lstrip (pre ++ s) = lstrip s.
Proof.
  induction pre as [|c pre IH]; cbn [forallb app lstrip]; [reflexivity|].
  intros H. apply andb_true_iff in H as [Hc Hpre].
  rewrite Hc. apply IH. exact Hpre.
Qed.

Lemma lstrip_no_space (s : pystr) :
  forallb (fun c => negb (isspace c)) s = true -> lstrip s = s.
Proof.
  destruct s as [|c s]; [reflexivity|]. cbn [forallb lstrip].
  intros H. apply andb_true_iff in H as [Hc _].
  apply negb_true_iff in Hc. rewrite Hc. reflexivity.
Qed.

(** White space around a text that has none in it is all that [strip]
    takes away. *)
Lemma strip_padded (pre core post : pystr) :
  forallb isspace pre = true -> forallb isspace post = true ->
  forallb (fun c => negb (isspace c)) core = true ->
  strip (pre ++ core ++ post) = core.
Proof.
  intros Hpre Hpost Hcore. unfold strip.
  rewrite lstrip_app_space by exact Hpre.
  destruct core as [|c core].
  - cbn [app]. apply lstrip_nil_iff in Hpost. rewrite Hpost. reflexivity.
  - assert (Hc : isspace c = false).
    { cbn [forallb] in Hcore. apply andb_true_iff in Hcore as [Hc _].
      apply negb_true_iff. exact Hc. }
    change ((c :: core) ++ post) with (c :: (core ++ post)).
    rewrite lstrip_fixed by exact Hc.
    change (c :: (core ++ post)) with ((c :: core) ++ post).
    unfold rstrip. rewrite rev_app_distr.
    rewrite lstrip_app_space by (rewrite forallb_rev; exact Hpost).
    rewrite lstrip_no_space by (rewrite forallb_rev; exact Hcore).
    apply rev_involutive.
Qed.

Lemma validator_all_nonspace (s : pystr) :
  validator s = true -> forallb (fun c => negb (isspace c)) s = true.
Proof.
  intros Hv. apply forallb_forall. intros c Hin.
  destruct (isspace c) eqn:Hc; [|reflexivity]. exfalso.
  assert (Hex : existsb isspace s = true)
    by (apply existsb_exists; exists c; auto).
  rewrite (validator_no_whitespace _ Hex) in Hv. discriminate.
Qed.

(** C10 (amended): on success [get_patient_phoneNumber] returns the reply
    of the extraction service for that pass with the white space at its
    two ends removed and nothing else changed.  A reply that is a text
    matching the grammar with any white space before and after it is
    accepted on that pass, and the text is returned without that white
    space (so a reply that matches as it is comes back character for
    character); a reply whose stripped form does not match is not
    accepted.  The value returned always comes from the reply of the
    [create_prompt] call logged just before the successful match, never
    from the operator's line directly. *)
Theorem C10_returns_the_stripped_reply :
  forall (w : world) (st : state),
    (forall pre core post : pystr,
        blank w st = false ->
        reply_of w st = Answer (pre ++ core ++ post) ->
        forallb isspace pre = true -> forallb isspace post = true ->
        validator core = true ->
        forall fuel,
          get_patient_phoneNumber (S fuel) w st = (Returned core, next w st))
    /\ (forall a : pystr,
          blank w st = false ->
          reply_of w st = Answer a ->
          validator (strip a) = false ->
          fst (loop_body w st) = Val None)
    /\ (forall (fuel : nat) (v : pystr) (st' : state),
          get_patient_phoneNumber fuel w st = (Returned v, st') ->
          exists (k : nat) (a : pystr),
            k < fuel
            /\ reply_of w (after k w st) = Answer a
            /\ v = strip a
            /\ (exists pre post,
                   a = pre ++ v ++ post
                   /\ forallb isspace pre = true
                   /\ forallb isspace post = true)
            /\ (validator a = true -> v = a)
            /\ (exists evs,
                   trace st'
                   = evs ++ [EvCreatePrompt TEMPLATE
                               (text_of w (after k w st)) (Answer a);
                             EvFullmatch PATTERN v true])).
Proof.
  intros w st. split; [|split].
  - intros pre core post Hb Hr Hpre Hpost Hv fuel.
    assert (Hs : strip (pre ++ core ++ post) = core)
      by (apply strip_padded; auto using validator_all_nonspace).
    assert (Hc : classify w st = Accepted core).
    { unfold classify. rewrite Hb, Hr. cbv zeta. rewrite Hs, Hv.
      destruct (eqb core INVALID) eqn:E; [|reflexivity].
      apply eqb_eq in E. subst core.
      rewrite validator_rejects_sentinel in Hv. discriminate. }
    rewrite run_step. apply pass_result_return in Hc. rewrite Hc.
    reflexivity.
  - intros a Hb Hr Hv. rewrite loop_body_pass. cbn [fst].
    apply pass_result_continue. right.
    unfold classify. rewrite Hb, Hr. cbv zeta. rewrite Hv.
    destruct (eqb (strip a) INVALID); reflexivity.
  - intros fuel v st' H.
    apply run_returned_inv in H as (k & Hk & _ & Ha & ->).
    pose proof (classify_accepted_inv _ _ Ha) as (_ & a & Hr & Hv & _ & _).
    exists k, a.
    split; [exact Hk|]. split; [exact Hr|]. split; [exact Hv|].
    split.
    { subst v. exact (strip_split a). }
    split.
    { intros Hva. subst v. apply validator_strip_fixed. exact Hva. }
    rewrite next_pass. unfold pass_state, pass_events. rewrite Ha.
    cbn [trace]. unfold ev_extract. rewrite Hr.
    exists (trace (after k w st) ++ [ev_input w (after k w st)]).
    rewrite <- app_assoc. reflexivity.
Qed.

Lemma C10_witness :
  (forall fuel,
      get_patient_phoneNumber (S fuel) w_padded initial
      = (Returned LOCAL, next w_padded initial))
  /\ fst (loop_body w_spaced initial) = Val None
  /\ exists (k : nat) (a : pystr),
       k < 1
       /\ reply_of w_padded (after k w_padded initial) = Answer a
       /\ LOCAL = strip a
       /\ (exists pre post,
              a = pre ++ LOCAL ++ post
              /\ forallb isspace pre = true /\ forallb isspace post = true)
       /\ (validator a = true -> LOCAL = a)
       /\ (exists evs,
              trace (snd (get_patient_phoneNumber 1 w_padded initial))
              = evs ++ [EvCreatePrompt TEMPLATE
                          (text_of w_padded (after k w_padded initial))
                          (Answer a);
                        EvFullmatch PATTERN LOCAL true]).
Proof.
  split; [|split].
  - apply (proj1 (C10_returns_the_stripped_reply w_padded initial)
             [0x20%N] LOCAL [0xA%N]);
      try reflexivity; vm_compute; reflexivity.
  - apply (proj1 (proj2 (C10_returns_the_stripped_reply w_spaced initial))
             (of_string "+92 320 737 3878"));
      try reflexivity; vm_compute; reflexivity.
  - apply (proj2 (proj2 (C10_returns_the_stripped_reply w_padded initial))
             1 LOCAL (snd (get_patient_phoneNumber 1 w_padded initial))).
    vm_compute. reflexivity.
Defined.

(** *** More fuel does not change a finished run *)

Lemma run_fuel_mono (fuel extra : nat) (w : world) :
  forall st o st',
    get_patient_phoneNumber fuel w st = (o, st') ->
    o <> Running ->
    get_patient_phoneNumber (fuel + extra) w st = (o, st').
Proof.
  induction fuel as [|fuel IH]; intros st o st' H Ho.
  - cbn in H. injection H as <- _. contradiction.
  - change (S fuel + extra) with (S (fuel + extra)).
    rewrite run_step in *.
    destruct (pass_result w st) as [[v|]|]; [exact H| |exact H].
    apply IH; assumption.
Qed.

(** *** The end-to-end scenarios of the specification *)

Example scenario_local_accepted :
  fst (get_patient_phoneNumber 1 w_local initial) = Returned LOCAL.
Proof. vm_compute. reflexivity. Qed.

Example scenario_international_accepted :
  fst (get_patient_phoneNumber 1 w_intl initial) = Returned INTL.
Proof. vm_compute. reflexivity. Qed.

Example scenario_sentinel_reprompts :
  classify w_sentinel initial = RejectedSentinel
  /\ fst (get_patient_phoneNumber 5 w_sentinel initial) = Running.
Proof. split; vm_compute; reflexivity. Qed.

Example scenario_short_number_rejected :
  classify w_short initial = RejectedMismatch (of_string "0320767307")
  /\ fst (get_patient_phoneNumber 5 w_short initial) = Running.
Proof. split; vm_compute; reflexivity. Qed.

Example scenario_empty_line_skips_extraction :
  classify w_retry initial = EmptyInput
  /\ extracted (next w_retry initial) = 0.
Proof. split; vm_compute; reflexivity. Qed.

Example scenario_spaced_number_rejected :
  classify w_spaced initial
  = RejectedMismatch (of_string "+92 320 737 3878")
  /\ fst (get_patient_phoneNumber 5 w_spaced initial) = Running.
Proof. split; vm_compute; reflexivity. Qed.

(** *** More on [strip] *)

Lemma lstrip_idem (s : pystr) : lstrip (lstrip s) = lstrip s.
Proof.
  destruct (lstrip s) as [|c t] eqn:E; [reflexivity|].
  apply lstrip_fixed. exact (lstrip_head _ E).
Qed.

Lemma rstrip_idem (s : pystr) : rstrip (rstrip s) = rstrip s.
Proof. unfold rstrip. rewrite rev_involutive, lstrip_idem. reflexivity. Qed.

Lemma lstrip_snoc (s : pystr) (c : codepoint) :
  isspace c = false -> lstrip (s ++ [c]) = lstrip s ++ [c].
Proof.
  intros Hc. induction s as [|x s IH]; cbn [lstrip app].
  - rewrite Hc. reflexivity.
  - destruct (isspace x); [exact IH|reflexivity].
Qed.

Lemma rstrip_cons (c : codepoint) (s : pystr) :
  isspace c = false -> rstrip (c :: s) = c :: rstrip s.
Proof.
  intros Hc. unfold rstrip. cbn [rev].
  rewrite lstrip_snoc by exact Hc. rewrite rev_app_distr. reflexivity.
Qed.

(** Stripping twice is stripping once. *)
Lemma strip_idem (s : pystr) : strip (strip s) = strip s.
Proof.
  unfold strip. destruct (lstrip s) as [|c t] eqn:E.
  - reflexivity.
  - pose proof (lstrip_head _ E) as Hc.
    rewrite rstrip_cons by exact Hc. rewrite lstrip_fixed by exact Hc.
    rewrite <- rstrip_cons by exact Hc. apply rstrip_idem.
Qed.

(** *** Invariants of the call log *)

Lemma count_app (p : event -> bool) (l1 l2 : list event) :
  count p (l1 ++ l2) = count p l1 + count p l2.
Proof. unfold count. rewrite filter_app, length_app. reflexivity. Qed.

(** What holds of the entries of every pass holds of the entries of a
    run. *)
Lemma run_added_forall (p : event -> bool) :
  (forall w st, forallb p (pass_events w st) = true) ->
  forall fuel w st o st',
    get_patient_phoneNumber fuel w st = (o, st') ->
    exists evs, trace st' = trace st ++ evs /\ forallb p evs = true.
Proof.
  intros Hp. induction fuel as [|fuel IH]; intros w st o st' H.
  - cbn in H. injection H as _ <-. exists []. rewrite app_nil_r. auto.
  - rewrite run_step in H.
    assert (Hn : trace (next w st) = trace st ++ pass_events w st)
      by (rewrite next_pass; reflexivity).
    destruct (pass_result w st) as [[v|]|].
    + injection H as _ <-. exists (pass_events w st). auto.
    + apply IH in H as (evs & E & Hevs).
      exists (pass_events w st ++ evs). rewrite E, Hn, app_assoc.
      split; [reflexivity|]. rewrite forallb_app, Hp, Hevs. reflexivity.
    + injection H as _ <-. exists (pass_events w st). auto.
Qed.

Lemma added_of_app (st st' : state) (evs : list event) :
  trace st' = trace st ++ evs -> added st st' = evs.
Proof.
  intros E. unfold added. rewrite E.
  rewrite skipn_app, skipn_all, Nat.sub_diag. reflexivity.
Qed.

Lemma text_of_strip (w : world) (st : state) :
  strip (text_of w st) = text_of w st.
Proof. unfold text_of. apply strip_idem. Qed.

Lemma pass_events_extract_ok (w : world) (st : state) :
  forallb extract_ok (pass_events w st) = true.
Proof.
  unfold pass_events, classify.
  destruct (blank w st) eqn:Hb; [reflexivity|].
  assert (Hx : extract_ok (ev_extract w st) = true).
  { unfold extract_ok, ev_extract.
    rewrite eqb_refl, text_of_strip, eqb_refl.
    rewrite blank_strip in Hb. apply negb_false_iff in Hb.
    fold (text_of w st) in Hb. rewrite Hb. reflexivity. }
  destruct (reply_of w st) as [a|] eqn:Hr.
  - cbv zeta. destruct (eqb (strip a) INVALID);
      [|destruct (validator (strip a))];
      cbn [forallb]; rewrite Hx; reflexivity.
  - cbn [forallb]. rewrite Hx. reflexivity.
Qed.

Lemma pass_calls_follow_input (w : world) (st : state)
      (last : option pystr) (rest : list event) :
  (forall last', calls_follow_input last' rest = true) ->
  calls_follow_input last (pass_events w st ++ rest) = true.
Proof.
  intros Hrest. unfold pass_events, classify.
  destruct (blank w st) eqn:Hb.
  { cbn [app calls_follow_input ev_input]. apply Hrest. }
  assert (Ht : truthy (text_of w st) = true).
  { rewrite blank_strip in Hb. apply negb_false_iff in Hb. exact Hb. }
  assert (Hcall : forall tail,
            calls_follow_input None tail = true ->
            calls_follow_input last
              (ev_input w st :: ev_extract w st :: tail) = true).
  { intros tail Htail. unfold ev_input, ev_extract.
    cbn [calls_follow_input]. rewrite eqb_refl, Ht, Htail.
    unfold text_of. rewrite eqb_refl. reflexivity. }
  destruct (reply_of w st) as [a|].
  - cbv zeta. destruct (eqb (strip a) INVALID);
      [|destruct (validator (strip a))];
      cbn [app]; apply Hcall; cbn [calls_follow_input]; apply Hrest.
  - cbn [app]. apply Hcall. apply Hrest.
Qed.

Lemma pass_input_lines (w : world) (st : state) (rest : list event) :
  input_lines (pass_events w st ++ rest)
  = operator w (asked st) :: input_lines rest.
Proof.
  unfold pass_events. destruct (classify w st); reflexivity.
Qed.

Lemma run_calls_follow_input (fuel : nat) (w : world) :
  forall st o st',
    get_patient_phoneNumber fuel w st = (o, st') ->
    exists evs,
      trace st' = trace st ++ evs
      /\ (forall last, calls_follow_input last evs = true)
      /\ asked st <= asked st'
      /\ input_lines evs
         = map (operator w) (seq (asked st) (asked st' - asked st)).
Proof.
  induction fuel as [|fuel IH]; intros st o st' H.
  - cbn in H. injection H as _ <-. exists []. rewrite app_nil_r.
    rewrite Nat.sub_diag. repeat split; auto.
  - rewrite run_step in H.
    assert (Hn : trace (next w st) = trace st ++ pass_events w st
                 /\ asked (next w st) = S (asked st))
      by (rewrite next_pass; split; reflexivity).
    destruct Hn as [Hn Ha].
    assert (Hone : forall st1,
              st1 = next w st ->
              exists evs,
                trace st1 = trace st ++ evs
                /\ (forall last, calls_follow_input last evs = true)
                /\ asked st <= asked st1
                /\ input_lines evs
                   = map (operator w) (seq (asked st) (asked st1 - asked st))).
    { intros st1 ->. exists (pass_events w st). split; [exact Hn|].
      split.
      - intros last. rewrite <- (app_nil_r (pass_events w st)).
        apply pass_calls_follow_input. reflexivity.
      - split; [lia|].
        rewrite <- (app_nil_r (pass_events w st)), pass_input_lines.
        replace (asked (next w st) - asked st) with 1 by lia. reflexivity. }
    destruct (pass_result w st) as [[v|]|].
    + injection H as _ <-. apply Hone. reflexivity.
    + apply IH in H as (evs & E & Hc & Hle & Hl).
      exists (pass_events w st ++ evs). rewrite E, Hn, app_assoc.
      split; [reflexivity|]. split.
      * intros last. apply pass_calls_follow_input. exact Hc.
      * split; [lia|]. rewrite pass_input_lines, Hl, Ha.
        replace (asked st' - asked st) with (S (asked st' - S (asked st)))
          by lia.
        reflexivity.
    + injection H as _ <-. apply Hone. reflexivity.
Qed.

(** X1: whatever the operator types and however long a run lasts, the
    lines that [input] returns are the operator's lines, one after the
    other, and every call of [create_prompt] comes right after a call of
    [input] and passes the fixed template and that line stripped, a text
    that is not empty and neither starts nor ends with white space. *)
Theorem service_always_called_with_clean_text :
  forall (fuel : nat) (w : world) (st : state),
    let st' := snd (get_patient_phoneNumber fuel w st) in
    let evs := added st st' in
    calls_follow_input None evs = true
    /\ input_lines evs
       = map (operator w) (seq (asked st) (asked st' - asked st))
    /\ forallb extract_ok evs = true.
Proof.
  intros fuel w st.
  destruct (get_patient_phoneNumber fuel w st) as [o st'] eqn:H.
  cbn [snd]. cbv zeta.
  destruct (run_calls_follow_input _ _ _ H) as (evs & E & Hc & _ & Hl).
  rewrite (@added_of_app st st' evs E).
  split; [apply Hc|]. split; [exact Hl|].
  destruct (run_added_forall extract_ok pass_events_extract_ok _ _ _ H)
    as (evs' & E' & Hevs).
  rewrite E in E'. apply app_inv_head in E'. subst evs'. exact Hevs.
Qed.


Lemma pass_events_counts (w : world) (st : state) :
  count is_input (pass_events w st) = 1
  /\ count is_create_prompt (pass_events w st)
     = (if blank w st then 0 else 1)
  /\ count is_fullmatch (pass_events w st)
     <= count is_create_prompt (pass_events w st)
  /\ count is_print (pass_events w st)
     = match pass_result w st with Val None => 1 | _ => 0 end.
Proof.
  unfold pass_events, pass_result, classify.
  destruct (blank w st); [cbn; repeat split; lia|].
  destruct (reply_of w st) as [a|]; [|cbn; repeat split; lia].
  cbv zeta. destruct (eqb (strip a) INVALID);
    [|destruct (validator (strip a))]; cbn; repeat split; lia.
Qed.




Lemma notices_run (fuel : nat) (w : world) :
  forall st o st',
    count is_print (trace st) = asked st ->
    get_patient_phoneNumber fuel w st = (o, st') ->
    count is_print (trace st') + silent_passes o = asked st'.
Proof.
  induction fuel as [|fuel IH]; intros st o st' Hinv H.
  - cbn in H. injection H as <- <-. cbn. lia.
  - rewrite run_step in H.
    destruct (pass_events_counts w st) as (_ & _ & _ & Cp).
    assert (Hn : count is_print (trace (next w st))
                 = asked st + count is_print (pass_events w st)
                 /\ asked (next w st) = S (asked st)).
    { rewrite next_pass. cbn [trace asked pass_state].
      rewrite count_app. lia. }
    destruct Hn as [Hn Ha].
    destruct (pass_result w st) as [[v|]|].
    + injection H as <- <-. cbn [silent_passes]. lia.
    + apply IH in H; [exact H|]. lia.
    + injection H as <- <-. cbn [silent_passes]. lia.
Qed.

Lemma pass_events_notice_ok (w : world) (st : state) :
  forallb notice_ok (pass_events w st) = true.
Proof.
  unfold pass_events. destruct (classify w st); cbn [forallb notice_ok];
    rewrite ?eqb_refl, ?orb_true_r; reflexivity.
Qed.

(** X3: the operator gets exactly one notice for every prompt that did
    not end the run: in a run from the start the number of printed
    messages is the number of prompts, less one when the run has returned
    or raised (the pass that returns or raises prints nothing), and every
    printed message is the empty-input notice or the rejection notice. *)
Theorem one_notice_per_unsuccessful_prompt :
  forall (fuel : nat) (w : world),
    let r := get_patient_phoneNumber fuel w initial in
    count is_print (trace (snd r)) + silent_passes (fst r) = asked (snd r)
    /\ forallb notice_ok (trace (snd r)) = true.
Proof.
  intros fuel w.
  destruct (get_patient_phoneNumber fuel w initial) as [o st'] eqn:H.
  cbv zeta. cbn [fst snd]. split.
  - eapply notices_run; [|exact H]. reflexivity.
  - destruct (run_added_forall notice_ok pass_events_notice_ok _ _ _ H)
      as (evs & E & Hevs).
    rewrite E. exact Hevs.
Qed.

(** X4: a pass runs the grammar check exactly when there is a candidate to
    check: the line was not blank, the service answered, and the answer
    without the white space around it is not the sentinel (so a sentinel
    with white space around it is not matched either).  The check is then
    run once, on the stripped answer. *)
Theorem grammar_check_runs_iff_candidate :
  forall (w : world) (st : state),
    (existsb is_fullmatch (added st (next w st)) = true <->
     blank w st = false
     /\ exists a, reply_of w st = Answer a /\ strip a <> INVALID)
    /\ (forall a,
          blank w st = false -> reply_of w st = Answer a ->
          strip a <> INVALID ->
          filter is_fullmatch (added st (next w st))
          = [EvFullmatch PATTERN (strip a) (validator (strip a))]).
Proof.
  intros w st. rewrite added_next. unfold pass_events, classify.
  destruct (blank w st).
  { split; [|discriminate]. cbn. split; [discriminate|].
    intros [H _]. discriminate. }
  destruct (reply_of w st) as [a|].
  2:{ split; [|discriminate]. cbn. split; [discriminate|].
      intros (_ & a & H & _). discriminate. }
  cbv zeta. destruct (eqb (strip a) INVALID) eqn:Hs.
  - apply eqb_eq in Hs. split.
    + cbn. split; [discriminate|].
      intros (_ & a' & E & Hne). injection E as <-. contradiction.
    + intros a' _ E Hne. injection E as <-. contradiction.
  - apply eqb_neq in Hs. split.
    + destruct (validator (strip a)); cbn; (split; [|reflexivity]);
        intros _; (split; [reflexivity|]); exists a; auto.
    + intros a' _ E _. injection E as <-.
      destruct (validator (strip a)); reflexivity.
Qed.

Lemma grammar_check_witness :
  filter is_fullmatch (added initial (next w_padded initial))
  = [EvFullmatch PATTERN (strip PADDED) (validator (strip PADDED))].
Proof.
  apply (proj2 (grammar_check_runs_iff_candidate w_padded initial)).
  - vm_compute. reflexivity.
  - reflexivity.
  - vm_compute. discriminate.
Defined.

(** X5: the value a run returns can be used as it is: it has no white
    space anywhere, stripping it changes nothing, and it is either 11
    characters starting with [0] or 13 characters starting with [+]. *)
Theorem returned_number_is_clean :
  forall (fuel : nat) (w : world) (st : state) (v : pystr) (st' : state),
    get_patient_phoneNumber fuel w st = (Returned v, st') ->
    existsb isspace v = false
    /\ strip v = v
    /\ ((hd_error v = Some 0x30%N /\ List.length v = 11)
        \/ (hd_error v = Some 0x2B%N /\ List.length v = 13)).
Proof.
  intros fuel w st v st' H.
  apply run_returned_inv in H as (k & _ & _ & Ha & _).
  apply classify_accepted_inv in Ha as (_ & a & _ & _ & _ & Hv).
  split.
  { destruct (existsb isspace v) eqn:E; [|reflexivity].
    rewrite (validator_no_whitespace _ E) in Hv. discriminate. }
  split; [exact (validator_strip_fixed _ Hv)|].
  apply validator_iff_grammar in Hv.
  destruct Hv as [(ds & -> & Hl & _)|(ds & -> & Hl & _)]; [left|right];
    (split; [reflexivity|]); rewrite length_app, Hl; reflexivity.
Qed.

Lemma returned_number_witness :
  existsb isspace INTL = false
  /\ strip INTL = INTL
  /\ ((hd_error INTL = Some 0x30%N /\ List.length INTL = 11)
      \/ (hd_error INTL = Some 0x2B%N /\ List.length INTL = 13)).
Proof.
  apply (returned_number_is_clean 3 w_retry initial
           (st' := snd (get_patient_phoneNumber 3 w_retry initial))).
  vm_compute. reflexivity.
Defined.

(** *** [trim] *)

Lemma trimStart_nil_iff (s : Js.jsstr) :
  Js.trimStart s = [] <-> forallb Js.is_white s = true.
Proof.
  induction s as [|c s IH]; cbn [Js.trimStart forallb].
  - split; reflexivity.
  - destruct (Js.is_white c); cbn [andb]; [exact IH|split; discriminate].
Qed.

Lemma trimStart_head (s : Js.jsstr) c t :
  Js.trimStart s = c :: t -> Js.is_white c = false.
Proof.
  induction s as [|x s IH]; cbn [Js.trimStart]; [discriminate|].
  destruct (Js.is_white x) eqn:Hx; [exact IH|].
  intros E. injection E as -> _. exact Hx.
Qed.

Lemma trimStart_snoc (s : Js.jsstr) (c : N) :
  Js.is_white c = false -> Js.trimStart (s ++ [c]) = Js.trimStart s ++ [c].
Proof.
  intros Hc. induction s as [|x s IH]; cbn [Js.trimStart app].
  - rewrite Hc. reflexivity.
  - destruct (Js.is_white x); [exact IH|reflexivity].
Qed.

(** A string trims to nothing exactly when it is empty or all white
    space. *)
Lemma trim_nil_iff (s : Js.jsstr) :
  Js.trim s = [] <-> forallb Js.is_white s = true.
Proof.
  unfold Js.trim, Js.trimEnd. split.
  - intros H. destruct (Js.trimStart s) as [|c t] eqn:E.
    + apply trimStart_nil_iff. exact E.
    + exfalso. pose proof (trimStart_head _ E) as Hc.
      cbn [rev] in H. rewrite trimStart_snoc in H by exact Hc.
      rewrite rev_app_distr in H. discriminate.
  - intros H. apply trimStart_nil_iff in H. rewrite H. reflexivity.
Qed.

Lemma trim_blank_cases (s : Js.jsstr) :
  (forallb Js.is_white s = true /\ Js.trim s = [])
  \/ (forallb Js.is_white s = false /\ exists c t, Js.trim s = c :: t).
Proof.
  destruct (Js.trim s) as [|c t] eqn:E.
  - left. split; [apply trim_nil_iff; exact E|reflexivity].
  - right. split; [|eauto].
    destruct (forallb Js.is_white s) eqn:F; [|reflexivity].
    apply trim_nil_iff in F. congruence.
Qed.

Lemma or_truthy (a b : Js.value) :
  Js.truthy b = true -> Js.truthy (Js.or a b) = true.
Proof. intros Hb. unfold Js.or. destruct (Js.truthy a) eqn:E; assumption. Qed.

(** *** [QueryProcessor.jsx] *)

(** X6: [handleQuerySubmit] sends nothing and changes nothing when the
    query to submit is empty or white space only; otherwise it sends
    exactly one request, and that request carries the query as typed, not
    trimmed. *)
Theorem blank_query_is_not_sent :
  forall (render : QueryProcessor.state) (customQuery : option Js.jsstr)
         (net : QueryProcessor.posted) (st : QueryProcessor.state),
    let final := QueryProcessor.finalQuery render customQuery in
    (forallb Js.is_white final = true ->
       QueryProcessor.handleQuerySubmit render customQuery net st = (st, []))
    /\ (forallb Js.is_white final = false ->
        snd (QueryProcessor.handleQuerySubmit render customQuery net st)
        = [ {| QueryProcessor.req_query := final |} ]).
Proof.
  intros render customQuery net st final.
  unfold QueryProcessor.handleQuerySubmit. fold final.
  destruct (trim_blank_cases final) as [[Hw Ht]|[Hw (c & t & Ht)]];
    rewrite Ht, Hw; split; intros H; try discriminate; reflexivity.
Qed.

Lemma blank_query_witness :
  QueryProcessor.handleQuerySubmit
    (QueryProcessor.setQuery (Js.lit "  ") QueryProcessor.initial) None
    QueryProcessor.Rejects QueryProcessor.initial
  = (QueryProcessor.initial, [])
  /\ snd (QueryProcessor.handleQuerySubmit
            (QueryProcessor.setQuery (Js.lit " fever ") QueryProcessor.initial)
            None QueryProcessor.Rejects QueryProcessor.initial)
     = [ {| QueryProcessor.req_query := Js.lit " fever " |} ].
Proof.
  split.
  - apply (proj1 (blank_query_is_not_sent
                    (QueryProcessor.setQuery (Js.lit "  ")
                       QueryProcessor.initial)
                    None QueryProcessor.Rejects QueryProcessor.initial)).
    vm_compute. reflexivity.
  - apply (proj2 (blank_query_is_not_sent
                    (QueryProcessor.setQuery (Js.lit " fever ")
                       QueryProcessor.initial)
                    None QueryProcessor.Rejects QueryProcessor.initial)).
    vm_compute. reflexivity.
Defined.

(** X7: once a query that is not blank has been submitted, whatever the
    backend does, the component is not left processing, the response it
    holds is truthy, and the text box and the listening flag are
    untouched.  When the reply carried fields, the agent it holds is
    truthy; when the request failed, the response is the fixed error text
    and the agent is the one of the previous answer. *)
Theorem submit_always_settles :
  forall (render : QueryProcessor.state) (customQuery : option Js.jsstr)
         (net : QueryProcessor.posted) (st : QueryProcessor.state),
    forallb Js.is_white (QueryProcessor.finalQuery render customQuery)
    = false ->
    let st' :=
      fst (QueryProcessor.handleQuerySubmit render customQuery net st) in
    QueryProcessor.isProcessing st' = false
    /\ Js.truthy (QueryProcessor.response st') = true
    /\ QueryProcessor.query st' = QueryProcessor.query st
    /\ QueryProcessor.isListening st' = QueryProcessor.isListening st
    /\ match net with
       | QueryProcessor.Resolves (QueryProcessor.Fields _ _) =>
           Js.truthy (QueryProcessor.agent st') = true
       | _ =>
           QueryProcessor.response st' = QueryProcessor.ERROR_RESPONSE
           /\ QueryProcessor.agent st' = QueryProcessor.agent st
       end.
Proof.
  intros render customQuery net st Hw.
  unfold QueryProcessor.handleQuerySubmit.
  destruct (trim_blank_cases (QueryProcessor.finalQuery render customQuery))
    as [[Hw' _]|[_ (c & t & Ht)]]; [congruence|].
  rewrite Ht. cbv zeta.
  destruct net as [|[|a r]]; cbn; repeat split;
    apply or_truthy; reflexivity.
Qed.

Lemma submit_settles_witness :
  QueryProcessor.isProcessing
    (fst (QueryProcessor.handleQuerySubmit
            (QueryProcessor.setQuery (Js.lit "fever") QueryProcessor.initial)
            None
            (QueryProcessor.Resolves
               (QueryProcessor.Fields Js.Undefined (Js.Str [])))
            QueryProcessor.initial))
  = false.
Proof.
  apply (submit_always_settles
           (QueryProcessor.setQuery (Js.lit "fever") QueryProcessor.initial)
           None
           (QueryProcessor.Resolves
              (QueryProcessor.Fields Js.Undefined (Js.Str [])))
           QueryProcessor.initial).
  vm_compute. reflexivity.
Defined.

(** X8: a recognition result always replaces the text of the query by the
    transcript and ends listening.  When the transcript is the empty
    string and a query that is not blank had been typed, what is sent is
    the typed query, the one the text box has just lost. *)
Theorem empty_transcript_submits_typed_query :
  forall (render : QueryProcessor.state) (transcript : Js.jsstr)
         (net : QueryProcessor.posted) (st : QueryProcessor.state),
    let r := QueryProcessor.onresult render transcript net st in
    QueryProcessor.query (fst r) = transcript
    /\ QueryProcessor.isListening (fst r) = false
    /\ (transcript = [] ->
        forallb Js.is_white (QueryProcessor.query render) = false ->
        snd r = [ {| QueryProcessor.req_query := QueryProcessor.query render |} ]).
Proof.
  intros render transcript net st r. subst r.
  unfold QueryProcessor.onresult, QueryProcessor.handleQuerySubmit.
  cbv zeta.
  destruct (trim_blank_cases
              (QueryProcessor.finalQuery render (Some transcript)))
    as [[Hw Ht]|[Hw (c & t & Ht)]]; rewrite Ht.
  - cbn. repeat split. intros -> Hq.
    cbn [QueryProcessor.finalQuery] in Hw. congruence.
  - destruct net as [|[|a r]]; cbn; repeat split; intros -> _; reflexivity.
Qed.

Lemma empty_transcript_witness :
  snd (QueryProcessor.onresult
         (QueryProcessor.setQuery (Js.lit "fever") QueryProcessor.initial)
         [] QueryProcessor.Rejects
         (QueryProcessor.setQuery (Js.lit "fever") QueryProcessor.initial))
  = [ {| QueryProcessor.req_query := Js.lit "fever" |} ].
Proof.
  apply (proj2 (proj2 (empty_transcript_submits_typed_query
           (QueryProcessor.setQuery (Js.lit "fever") QueryProcessor.initial)
           [] QueryProcessor.Rejects
           (QueryProcessor.setQuery (Js.lit "fever") QueryProcessor.initial)))).
  - reflexivity.
  - vm_compute. reflexivity.
Defined.

(** *** The conversation-keeping [QueryProcessor] *)

(** X9: a failed exchange, whether [fetch] rejects, the status is not ok
    or the body cannot be read, loses nothing of the conversation: the
    query, the response shown, the status and the agent are as before;
    the error message is set and the component is no longer loading. *)
Theorem failed_exchange_keeps_conversation :
  forall (net : Conversation.fetched) (st : Conversation.state),
    Conversation.succeeded net = false ->
    let st' := fst (Conversation.handleSubmit net st) in
    Conversation.query st' = Conversation.query st
    /\ Conversation.response st' = Conversation.response st
    /\ Conversation.queryStatus st' = Conversation.queryStatus st
    /\ Conversation.currentAgent st' = Conversation.currentAgent st
    /\ Conversation.error st' <> None
    /\ Conversation.loading st' = false.
Proof.
  intros net st H.
  destruct net as [m| |m|[m|r s a]]; try discriminate;
    cbn; repeat split; discriminate.
Qed.

Lemma failed_exchange_witness :
  Conversation.error
    (fst (Conversation.handleSubmit Conversation.NotOk Conversation.initial))
  <> None.
Proof.
  apply (failed_exchange_keeps_conversation
           Conversation.NotOk Conversation.initial).
  reflexivity.
Defined.

Lemma converse_app (t1 t2 : list (Js.jsstr * Conversation.fetched))
      (st : Conversation.state) :
  Conversation.converse (t1 ++ t2) st
  = (fst (Conversation.converse t2 (fst (Conversation.converse t1 st))),
     snd (Conversation.converse t1 st)
     ++ snd (Conversation.converse t2 (fst (Conversation.converse t1 st)))).
Proof.
  revert st. induction t1 as [|[typed net] t1 IH]; intros st.
  - cbn [app Conversation.converse fst snd].
    destruct (Conversation.converse t2 st); reflexivity.
  - cbn [app Conversation.converse].
    destruct (Conversation.handleSubmit net (Conversation.setQuery typed st))
      as [st1 req].
    rewrite IH.
    destruct (Conversation.converse t1 st1) as [st2 reqs].
    reflexivity.
Qed.

Lemma handleSubmit_told (net : Conversation.fetched)
      (st : Conversation.state) :
  let st' := fst (Conversation.handleSubmit net st) in
  (Conversation.currentAgent st', Conversation.queryStatus st')
  = Conversation.told net
      (Conversation.currentAgent st, Conversation.queryStatus st).
Proof.
  destruct net as [m| |m|[m|r s a]]; try reflexivity.
  unfold Conversation.handleSubmit, Conversation.told. cbv zeta. cbn [fst].
  destruct (Js.is_string s (Js.lit "resolved")); reflexivity.
Qed.

Lemma converse_told (turns : list (Js.jsstr * Conversation.fetched)) :
  forall st,
    let st' := fst (Conversation.converse turns st) in
    (Conversation.currentAgent st', Conversation.queryStatus st')
    = fold_left (fun acc turn => Conversation.told (snd turn) acc) turns
        (Conversation.currentAgent st, Conversation.queryStatus st).
Proof.
  induction turns as [|[typed net] turns IH]; intros st; [reflexivity|].
  cbn [Conversation.converse fold_left snd].
  pose proof (handleSubmit_told net (Conversation.setQuery typed st)) as Ht.
  destruct (Conversation.handleSubmit net (Conversation.setQuery typed st))
    as [st1 req] eqn:E.
  cbn [fst] in Ht. specialize (IH st1).
  destruct (Conversation.converse turns st1) as [st2 reqs].
  cbn [fst] in *. rewrite IH, Ht. reflexivity.
Qed.

(** X10: every submit sends one request, and that request repeats to the
    server the agent and the status the conversation is in: those of the
    last reply that came through, or no agent and [inactive] when that
    reply said [resolved] or none has come yet; failed exchanges in
    between change nothing of it. *)
Theorem request_repeats_last_reply :
  forall (turns : list (Js.jsstr * Conversation.fetched))
         (typed : Js.jsstr) (net : Conversation.fetched),
    let reqs :=
      snd (Conversation.converse (turns ++ [(typed, net)])
             Conversation.initial) in
    List.length reqs = S (List.length turns)
    /\ exists req,
         nth_error reqs (List.length turns) = Some req
         /\ Conversation.req_query req = typed
         /\ (Conversation.req_currentAgent req,
             Conversation.req_queryStatus req)
            = fold_left (fun acc turn => Conversation.told (snd turn) acc)
                turns (Js.Null, Conversation.INACTIVE).
Proof.
  intros turns typed net reqs. subst reqs. rewrite converse_app. cbn [snd].
  pose proof (converse_told turns Conversation.initial) as Ht.
  assert (Hlen : forall ts st,
             List.length (snd (Conversation.converse ts st)) = List.length ts).
  { induction ts as [|[q n] ts IH]; intros st; [reflexivity|].
    cbn [Conversation.converse].
    destruct (Conversation.handleSubmit n (Conversation.setQuery q st))
      as [st1 req].
    specialize (IH st1). destruct (Conversation.converse ts st1).
    cbn [snd List.length] in *. rewrite IH. reflexivity. }
  set (st1 := fst (Conversation.converse turns Conversation.initial)) in *.
  split.
  - rewrite length_app, Hlen. cbn. lia.
  - cbn [Conversation.converse].
    exists {| Conversation.req_query := typed;
              Conversation.req_currentAgent := Conversation.currentAgent st1;
              Conversation.req_queryStatus := Conversation.queryStatus st1 |}.
    split.
    + rewrite nth_error_app2 by (rewrite Hlen; lia).
      rewrite Hlen, Nat.sub_diag.
      reflexivity.
    + split; [reflexivity|]. exact Ht.
Qed.

(** *** The voice call *)

Lemma onstop_transcript (chunks : list N) (net : CallSimulation.fetched)
      (stamp : nat -> Js.jsstr) (st : CallSimulation.app) :
  CallSimulation.transcript (fst (CallSimulation.onstop chunks net stamp st))
  = CallSimulation.transcript st ++ CallSimulation.appended net stamp.
Proof.
  destruct net as [| | |[|sid heard resp aty]];
    try (cbn; rewrite app_nil_r; reflexivity).
  unfold CallSimulation.onstop, CallSimulation.appended. cbv zeta.
  destruct (Js.truthy sid), (Js.truthy heard), (Js.truthy resp),
    (Js.truthy aty); cbn; rewrite <- ?app_assoc, ?app_nil_r; reflexivity.
Qed.

Lemma onstop_activeAgent (chunks : list N) (net : CallSimulation.fetched)
      (stamp : nat -> Js.jsstr) (st : CallSimulation.app) :
  CallSimulation.activeAgent (fst (CallSimulation.onstop chunks net stamp st))
  = match net with
    | CallSimulation.Json (CallSimulation.Fields _ _ resp agent_type) =>
        if Js.truthy resp && Js.truthy agent_type then agent_type
        else CallSimulation.activeAgent st
    | _ => CallSimulation.activeAgent st
    end.
Proof.
  destruct net as [| | |[|sid heard resp aty]]; try reflexivity.
  unfold CallSimulation.onstop. cbv zeta.
  destruct (Js.truthy sid), (Js.truthy heard), (Js.truthy resp),
    (Js.truthy aty); reflexivity.
Qed.


Lemma skipn_appended (l new : list CallSimulation.message) :
  skipn (List.length l) (l ++ new) = new.
Proof. rewrite skipn_app, skipn_all, Nat.sub_diag. reflexivity. Qed.


(** X12: every answer of the agent put in the transcript carries a label
    (its [agentType] is truthy, [RAG] when the reply named no agent).  The
    active agent changes only along with such an answer, and then to its
    label; an answer whose reply named no agent is labelled [RAG] and
    leaves the active agent as it was. *)
Theorem agent_answers_are_labelled :
  forall (chunks : list N) (net : CallSimulation.fetched)
         (stamp : nat -> Js.jsstr) (st : CallSimulation.app),
    let st' := fst (CallSimulation.onstop chunks net stamp st) in
    let new :=
      skipn (List.length (CallSimulation.transcript st))
        (CallSimulation.transcript st') in
    forallb (fun m => negb (CallSimulation.is_agent_message m)
                      || Js.truthy (CallSimulation.agentType m)) new = true
    /\ (CallSimulation.activeAgent st' = CallSimulation.activeAgent st
        \/ exists m,
             In m new
             /\ CallSimulation.is_agent_message m = true
             /\ CallSimulation.agentType m = CallSimulation.activeAgent st')
    /\ (forall sid heard resp agent_type,
          net = CallSimulation.Json
                  (CallSimulation.Fields sid heard resp agent_type) ->
          Js.truthy resp = true -> Js.truthy agent_type = false ->
          CallSimulation.activeAgent st' = CallSimulation.activeAgent st
          /\ exists m,
               In m new
               /\ CallSimulation.text m = resp
               /\ CallSimulation.agentType m = CallSimulation.RAG).
Proof.
  intros chunks net stamp st st' new. subst st' new.
  rewrite onstop_transcript, skipn_appended, onstop_activeAgent.
  destruct net as [| | |[|sid heard resp aty]];
    try (split; [reflexivity|split; [left; reflexivity|discriminate]]).
  unfold CallSimulation.appended.
  assert (Hlabel : forall t,
            Js.truthy (CallSimulation.agentType
              {| CallSimulation.text := resp;
                 CallSimulation.sender := CallSimulation.AGENT;
                 CallSimulation.agentType := Js.or aty CallSimulation.RAG;
                 CallSimulation.timestamp := t |}) = true).
  { intros t. apply or_truthy. reflexivity. }
  split; [|split].
  - rewrite forallb_app. apply andb_true_iff. split.
    + destruct (Js.truthy heard); reflexivity.
    + destruct (Js.truthy resp); [|reflexivity].
      cbn [forallb]. rewrite Hlabel, orb_true_r. reflexivity.
  - destruct (Js.truthy resp) eqn:Hr; [|left; reflexivity].
    destruct (Js.truthy aty) eqn:Ha; [|left; reflexivity].
    right. eexists. split; [apply in_or_app; right; left; reflexivity|].
    split; [reflexivity|].
    cbn [CallSimulation.agentType andb]. unfold Js.or. rewrite Ha.
    reflexivity.
  - intros sid' heard' resp' aty' E Hr Ha. injection E as <- <- <- <-.
    rewrite Hr, Ha. split; [reflexivity|].
    eexists. split; [apply in_or_app; right; left; reflexivity|].
    split; [reflexivity|].
    cbn [CallSimulation.agentType]. unfold Js.or. rewrite Ha. reflexivity.
Qed.

Lemma agent_answers_witness :
  CallSimulation.activeAgent
    (fst (CallSimulation.onstop []
            (CallSimulation.Json
               (CallSimulation.Fields Js.Undefined Js.Undefined
                  (Js.Str (Js.lit "Visiting hours are 9 to 5.")) Js.Undefined))
            (fun _ => []) CallSimulation.initial))
  = Js.Null.
Proof.
  apply (proj2 (proj2 (agent_answers_are_labelled []
           (CallSimulation.Json
              (CallSimulation.Fields Js.Undefined Js.Undefined
                 (Js.Str (Js.lit "Visiting hours are 9 to 5.")) Js.Undefined))
           (fun _ => []) CallSimulation.initial))
         Js.Undefined Js.Undefined
         (Js.Str (Js.lit "Visiting hours are 9 to 5.")) Js.Undefined);
    reflexivity.
Defined.

(** *** [formatDuration] *)

(** X15: for a session that started at or before now, [formatDuration]
    prints whole minutes and seconds that add up to the elapsed time cut
    to whole seconds, the minutes not negative and the seconds between 0
    and 59. *)
Theorem duration_splits_into_minutes_and_seconds :
  forall now start : Z,
    (start <= now)%Z ->
    exists m s : Z,
      Dashboard.formatDuration now (Some start)
      = Dashboard.show m ++ Js.lit "m " ++ Dashboard.show s ++ Js.lit "s"
      /\ (0 <= m)%Z /\ (0 <= s < 60)%Z
      /\ (60 * m + s = (now - start) / 1000)%Z.
Proof.
  intros now start H.
  exists (Dashboard.minutes (now - start)), (Dashboard.seconds (now - start)).
  split; [reflexivity|].
  unfold Dashboard.minutes, Dashboard.seconds.
  change (1000 * 60)%Z with 60000%Z.
  Z.quot_rem_to_equations. Z.div_mod_to_equations. lia.
Qed.

Lemma duration_witness :
  exists m s : Z,
    Dashboard.formatDuration 1700000125500%Z (Some 1700000000000%Z)
    = Dashboard.show m ++ Js.lit "m " ++ Dashboard.show s ++ Js.lit "s"
    /\ (0 <= m)%Z /\ (0 <= s < 60)%Z
    /\ (60 * m + s = (1700000125500 - 1700000000000%Z) / 1000)%Z.
Proof.
  apply (@duration_splits_into_minutes_and_seconds
           1700000125500%Z 1700000000000%Z).
  lia.
Defined.

(** X16: for a start that lies in the future, the two numbers are zero or
    negative, and unless the difference is a whole number of minutes they
    add up to a full minute more than the real distance: one millisecond
    ahead is printed as [-1m -1s]. *)
Theorem future_start_overshoots_by_a_minute :
  forall now start : Z,
    (now < start)%Z ->
    let d := (now - start)%Z in
    (Dashboard.minutes d < 0)%Z
    /\ (-60 <= Dashboard.seconds d <= 0)%Z
    /\ (Z.rem d 60000 <> 0 ->
        60 * Dashboard.minutes d + Dashboard.seconds d = d / 1000 - 60)%Z
    /\ (Z.rem d 60000 = 0 ->
        60 * Dashboard.minutes d + Dashboard.seconds d = d / 1000)%Z.
Proof.
  intros now start H d.
  unfold Dashboard.minutes, Dashboard.seconds.
  change (1000 * 60)%Z with 60000%Z.
  assert (Hd : (d < 0)%Z) by (subst d; lia).
  clearbody d. clear H.
  Z.quot_rem_to_equations. Z.div_mod_to_equations. lia.
Qed.

Lemma future_start_witness :
  Dashboard.formatDuration 1700000000000%Z (Some 1700000000001%Z)
  = Js.lit "-1m -1s"
  /\ (Dashboard.minutes (1700000000000 - 1700000000001%Z) < 0)%Z.
Proof.
  split; [vm_compute; reflexivity|].
  apply (@future_start_overshoots_by_a_minute
           1700000000000%Z 1700000000001%Z).
  lia.
Defined.

(** *** The settings *)

Lemma override_same (m : Settings.props) (k : Js.jsstr) (v : Settings.node) :
  Settings.override m k v k = Some v.
Proof. unfold Settings.override. rewrite eqb_refl. reflexivity. Qed.

Lemma override_other (m : Settings.props) (k k' : Js.jsstr)
      (v : Settings.node) :
  k' <> k -> Settings.override m k v k' = m k'.
Proof.
  intros H. unfold Settings.override.
  destruct (eqb k' k) eqn:E; [|reflexivity].
  apply eqb_eq in E. contradiction.
Qed.

Lemma apply_keeps_sections (a : Settings.action) (st : Settings.props) :
  Settings.is_object (st Settings.HOSPITAL_POLICIES) = true ->
  Settings.is_object (st Settings.AGENT_SETTINGS) = true ->
  exists st',
    Settings.apply a st = Some st'
    /\ Settings.is_object (st' Settings.HOSPITAL_POLICIES) = true
    /\ Settings.is_object (st' Settings.AGENT_SETTINGS) = true.
Proof.
  intros Hh Ha. destruct a as [category setting value|agent setting value].
  - eexists. split; [reflexivity|].
    unfold Settings.handleSettingChange, Settings.override.
    split.
    + destruct (eqb Settings.HOSPITAL_POLICIES category); [reflexivity|exact Hh].
    + destruct (eqb Settings.AGENT_SETTINGS category); [reflexivity|exact Ha].
  - cbn [Settings.apply]. unfold Settings.handleAgentSettingChange.
    destruct (st Settings.AGENT_SETTINGS) as [[p|own]|] eqn:E;
      try discriminate.
    eexists. split; [reflexivity|]. split.
    + rewrite override_other by discriminate. exact Hh.
    + rewrite override_same. reflexivity.
Qed.

(** X17: whatever sequence of changes the settings tab asks for, starting
    from the initial settings, no handler throws, and [hospitalPolicies]
    and [agentSettings] are objects afterwards: the reading of
    [agentSettings[agent]] in [handleAgentSettingChange] never meets
    [undefined]. *)
Theorem settings_sections_stay_objects :
  forall acts : list Settings.action,
    exists st,
      Settings.run acts Settings.initial = Some st
      /\ Settings.is_object (st Settings.HOSPITAL_POLICIES) = true
      /\ Settings.is_object (st Settings.AGENT_SETTINGS) = true.
Proof.
  intros acts.
  assert (H : forall st,
            Settings.is_object (st Settings.HOSPITAL_POLICIES) = true ->
            Settings.is_object (st Settings.AGENT_SETTINGS) = true ->
            exists st',
              Settings.run acts st = Some st'
              /\ Settings.is_object (st' Settings.HOSPITAL_POLICIES) = true
              /\ Settings.is_object (st' Settings.AGENT_SETTINGS) = true).
  { induction acts as [|a acts IH]; intros st Hh Ha.
    - exists st. auto.
    - destruct (apply_keeps_sections a st Hh Ha) as (st1 & E & Hh1 & Ha1).
      cbn [Settings.run]. rewrite E. apply IH; assumption. }
  apply H; reflexivity.
Qed.

(** X18: changing one setting of one agent is local.  When
    [agentSettings] is an object, afterwards that setting reads as the new
    value, the agent's other settings read as they did (there are none if
    the agent had no object of settings), every other agent and every
    other section of the settings is untouched. *)
Theorem agent_setting_change_is_local :
  forall (agent setting : Js.jsstr) (value : Settings.node)
         (prevSettings : Settings.props) (section : Settings.props),
    prevSettings Settings.AGENT_SETTINGS = Some (Settings.Object section) ->
    exists st,
      Settings.handleAgentSettingChange agent setting value prevSettings
      = Some st
      /\ Settings.read (st Settings.AGENT_SETTINGS) [agent; setting]
         = Some value
      /\ (forall other, other <> setting ->
            Settings.read (st Settings.AGENT_SETTINGS) [agent; other]
            = Settings.spread (section agent) other)
      /\ (forall other, other <> agent ->
            Settings.read (st Settings.AGENT_SETTINGS) [other]
            = section other)
      /\ (forall k, k <> Settings.AGENT_SETTINGS -> st k = prevSettings k).
Proof.
  intros agent setting value prevSettings section H.
  unfold Settings.handleAgentSettingChange. rewrite H.
  eexists. split; [reflexivity|].
  rewrite override_same. cbn [Settings.read Settings.spread Settings.member].
  rewrite override_same. cbn [Settings.read].
  split; [apply override_same|].
  split; [intros other Ho; apply override_other; exact Ho|].
  split.
  - intros other Ho. rewrite override_other by exact Ho. reflexivity.
  - intros k Hk. apply override_other. exact Hk.
Qed.

Lemma agent_setting_witness :
  exists st,
    Settings.handleAgentSettingChange (Js.lit "SQL") (Js.lit "enabled")
      (Settings.Prim (Settings.PBool false)) Settings.initial
    = Some st
    /\ Settings.read (st Settings.AGENT_SETTINGS)
         [Js.lit "SQL"; Js.lit "enabled"]
       = Some (Settings.Prim (Settings.PBool false)).
Proof.
  destruct (@agent_setting_change_is_local
              (Js.lit "SQL") (Js.lit "enabled")
              (Settings.Prim (Settings.PBool false)) Settings.initial
              (Settings.literal
                 [ ("RAG"%string,
                    Settings.Object
                      (Settings.literal
                         [ ("enabled"%string,
                            Settings.Prim (Settings.PBool true));
                           ("responseTime"%string, Settings.number 3) ]));
                   ("GraphRAG"%string,
                    Settings.Object
                      (Settings.literal
                         [ ("enabled"%string,
                            Settings.Prim (Settings.PBool true));
                           ("responseTime"%string, Settings.number 4) ]));
                   ("SQL"%string,
                    Settings.Object
                      (Settings.literal
                         [ ("enabled"%string,
                            Settings.Prim (Settings.PBool true));
                           ("responseTime"%string, Settings.number 2) ]));
                   ("General"%string,
                    Settings.Object
                      (Settings.literal
                         [ ("enabled"%string,
                            Settings.Prim (Settings.PBool true));
                           ("responseTime"%string, Settings.number 1) ])) ])
              eq_refl)
    as (st & E & Hr & _).
  exists st. split; [exact E|exact Hr].
Defined.
